(** * CumulusCI task lifecycle: a shallow embedding of [cumulusci/core/tasks.py]

    The module defines [BaseTask] and [BaseSalesforceTask]: option
    resolution and validation at construction, the [__call__] wrapper
    (task stack, working directory, output capture), the retry loop, the
    poll loop and [freeze].  Python objects become records, dictionaries
    become finite maps, and every method that mutates [self] or the process
    becomes a function in a small state-and-exception monad. *)

From Stdlib Require Import ZArith String Ascii List Lia.
From stdpp Require Import gmap strings list fin_maps pretty.

Local Open Scope string_scope.
Local Open Scope Z_scope.

(** ** Python values *)

(** The values that travel through option mappings, configuration
    attributes and schema descriptors.  [VObj] stands for an object of any
    other class (a list, a dict, a version number, ...): this module only
    ever observes such an object through [str()] and through its truth
    value, so it is represented by these two.  Floats are outside the
    model. *)
Inductive PyVal :=
| VNone
| VBool (b : bool)
| VInt (z : Z)
| VStr (s : string)
| VObj (shown : string) (truth : bool).

(** Truth value testing, as [if v:] / [not v] / [v or w] do it. *)
Definition py_truthy (v : PyVal) : bool :=
  match v with
  | VNone => false
  | VBool b => b
  | VInt z => negb (z =? 0)
  | VStr s => negb (String.eqb s EmptyString)
  | VObj _ t => t
  end.

(** [str(v)], which is also what an f-string placeholder produces. *)
Definition py_str (v : PyVal) : string :=
  match v with
  | VNone => "None"
  | VBool true => "True"
  | VBool false => "False"
  | VInt z => pretty z
  | VStr s => s
  | VObj shown _ => shown
  end.

(** [a or b] *)
Definition py_or (a b : PyVal) : PyVal := if py_truthy a then a else b.

(** [isinstance(v, str)] *)
Definition is_str (v : PyVal) : bool :=
  match v with VStr _ => true | _ => false end.

(** [v is True]: identity with the singleton [True], which no integer and
    no string shares. *)
Definition is_True (v : option PyVal) : bool :=
  match v with Some (VBool true) => true | _ => false end.

(** [bool] is a subclass of [int]: both take part in arithmetic. *)
Definition py_as_int (v : PyVal) : option Z :=
  match v with
  | VInt z => Some z
  | VBool b => Some (if b then 1 else 0)
  | _ => None
  end.

(** ** Exceptions *)

(** Instances of [Exception]: what [except Exception] catches. *)
Inductive exn :=
| TaskOptionsError (msg : string)
| TaskRequiresSalesforceOrg (msg : string)
| ServiceNotValid (msg : string)
| ServiceNotConfigured (msg : string)
| NotImplementedError (msg : string)
| KeyError (key : string)
| AttributeError (attr : string)
| TypeError
| ValueError
| IndexError
| OtherError (kind msg : string).

Inductive outcome (A : Type) :=
| Ok (a : A)
| Raise (e : exn).
Arguments Ok {A} a.
Arguments Raise {A} e.

Definition is_Ok {A} (r : outcome A) : bool :=
  match r with Ok _ => true | Raise _ => false end.

(** [a + b] and [a - b] on the modelled values. *)
Definition py_add (a b : PyVal) : outcome PyVal :=
  match py_as_int a, py_as_int b with
  | Some x, Some y => Ok (VInt (x + y))
  | _, _ =>
      match a, b with
      | VStr s, VStr t => Ok (VStr (s +:+ t))
      | _, _ => Raise TypeError
      end
  end.

Definition py_sub (a b : PyVal) : outcome PyVal :=
  match py_as_int a, py_as_int b with
  | Some x, Some y => Ok (VInt (x - y))
  | _, _ => Raise TypeError
  end.

(** ** External collaborators *)

Module Service.
Record t := { client_id : PyVal }.
End Service.

Module Keychain.
  (** [get_service(name)] returns the service or raises. *)
Record t := { get_service : string -> outcome Service.t }.
End Keychain.

Module ProjectConfig.
  (** [attrs] is the object's attribute dictionary as [getattr] sees it;
      [repo_root] is read from it by name.  [keychain] is the keychain
      accessor. *)
Record t := {
    attrs : gmap string PyVal;
    keychain : option Keychain.t
  }.
End ProjectConfig.

Module OrgConfig.
Record t := { username : PyVal; org_id : PyVal }.
End OrgConfig.

Module Flow.
  (** Only the flow's logger is read: its name. *)
Record t := { logger : string }.
End Flow.

Module TaskConfig.
  (** [ui_options] is [config.get("ui_options")], [None] when the key is
      absent. *)
Record t := {
    name : PyVal;
    class_path : PyVal;
    options : option (gmap string PyVal);
    checks : option (list PyVal);
    ui_options : option (gmap string PyVal)
  }.
End TaskConfig.

Module Step.
  (** [source] is [step.project_config.source.frozenspec]. *)
Record t := { path : PyVal; step_num : PyVal; source : PyVal }.
End Step.

(** ** The task object and the process around it *)

(** The attributes [__init__] sets on [self].  [task_id] is the object's
    identity; [attrs] holds whatever further attributes a subclass keeps
    on the instance. *)
Record BaseTask := {
  task_id : nat;
  project_config : option ProjectConfig.t;
  task_config : TaskConfig.t;
  org_config : option OrgConfig.t;
  logger : string;
  return_values : gmap string PyVal;
  result : PyVal;
  flow : option Flow.t;
  name : PyVal;
  stepnum : PyVal;
  debug_mode : bool;
  options : gmap string PyVal;
  poll_complete : bool;
  poll_count : Z;
  poll_interval_level : Z;
  poll_interval_s : Z;
  working_path : option string;
  attrs : gmap string PyVal
}.

Inductive level := INFO | WARNING.

(** What the process does that an observer outside the task can see. *)
Inductive event :=
| Log (lvl : level) (msg : string)
| Sleep (seconds : Z)
| RefreshToken (user : PyVal).

(** [stack] is the [stack] attribute of the thread-local [CURRENT_TASK]
    ([None] while the attribute does not exist); [cwd] is the working
    directory of the process; [output_to] is the logger that captures
    standard output, if any; [CAPTURE_TASK_OUTPUT] is the module constant
    read from the environment at import. *)
Record World := {
  stack : option (list nat);
  cwd : string;
  output_to : option string;
  events : list event;
  CAPTURE_TASK_OUTPUT : bool
}.

Record State := { self : BaseTask; env : World }.

(** Attribute assignment: [self.f = v] rebuilds the record with one field
    changed. *)
Definition set_result (v : PyVal) (t : BaseTask) : BaseTask :=
  {| task_id := task_id t;
     project_config := project_config t;
     task_config := task_config t;
     org_config := org_config t;
     logger := logger t;
     return_values := return_values t;
     result := v;
     flow := flow t;
     name := name t;
     stepnum := stepnum t;
     debug_mode := debug_mode t;
     options := options t;
     poll_complete := poll_complete t;
     poll_count := poll_count t;
     poll_interval_level := poll_interval_level t;
     poll_interval_s := poll_interval_s t;
     working_path := working_path t;
     attrs := attrs t |}.
Definition set_options (v : gmap string PyVal) (t : BaseTask) : BaseTask :=
  {| task_id := task_id t;
     project_config := project_config t;
     task_config := task_config t;
     org_config := org_config t;
     logger := logger t;
     return_values := return_values t;
     result := result t;
     flow := flow t;
     name := name t;
     stepnum := stepnum t;
     debug_mode := debug_mode t;
     options := v;
     poll_complete := poll_complete t;
     poll_count := poll_count t;
     poll_interval_level := poll_interval_level t;
     poll_interval_s := poll_interval_s t;
     working_path := working_path t;
     attrs := attrs t |}.
Definition set_poll_complete (v : bool) (t : BaseTask) : BaseTask :=
  {| task_id := task_id t;
     project_config := project_config t;
     task_config := task_config t;
     org_config := org_config t;
     logger := logger t;
     return_values := return_values t;
     result := result t;
     flow := flow t;
     name := name t;
     stepnum := stepnum t;
     debug_mode := debug_mode t;
     options := options t;
     poll_complete := v;
     poll_count := poll_count t;
     poll_interval_level := poll_interval_level t;
     poll_interval_s := poll_interval_s t;
     working_path := working_path t;
     attrs := attrs t |}.
Definition set_poll_count (v : Z) (t : BaseTask) : BaseTask :=
  {| task_id := task_id t;
     project_config := project_config t;
     task_config := task_config t;
     org_config := org_config t;
     logger := logger t;
     return_values := return_values t;
     result := result t;
     flow := flow t;
     name := name t;
     stepnum := stepnum t;
     debug_mode := debug_mode t;
     options := options t;
     poll_complete := poll_complete t;
     poll_count := v;
     poll_interval_level := poll_interval_level t;
     poll_interval_s := poll_interval_s t;
     working_path := working_path t;
     attrs := attrs t |}.
Definition set_poll_interval_level (v : Z) (t : BaseTask) : BaseTask :=
  {| task_id := task_id t;
     project_config := project_config t;
     task_config := task_config t;
     org_config := org_config t;
     logger := logger t;
     return_values := return_values t;
     result := result t;
     flow := flow t;
     name := name t;
     stepnum := stepnum t;
     debug_mode := debug_mode t;
     options := options t;
     poll_complete := poll_complete t;
     poll_count := poll_count t;
     poll_interval_level := v;
     poll_interval_s := poll_interval_s t;
     working_path := working_path t;
     attrs := attrs t |}.
Definition set_poll_interval_s (v : Z) (t : BaseTask) : BaseTask :=
  {| task_id := task_id t;
     project_config := project_config t;
     task_config := task_config t;
     org_config := org_config t;
     logger := logger t;
     return_values := return_values t;
     result := result t;
     flow := flow t;
     name := name t;
     stepnum := stepnum t;
     debug_mode := debug_mode t;
     options := options t;
     poll_complete := poll_complete t;
     poll_count := poll_count t;
     poll_interval_level := poll_interval_level t;
     poll_interval_s := v;
     working_path := working_path t;
     attrs := attrs t |}.
Definition set_working_path (v : option string) (t : BaseTask) : BaseTask :=
  {| task_id := task_id t;
     project_config := project_config t;
     task_config := task_config t;
     org_config := org_config t;
     logger := logger t;
     return_values := return_values t;
     result := result t;
     flow := flow t;
     name := name t;
     stepnum := stepnum t;
     debug_mode := debug_mode t;
     options := options t;
     poll_complete := poll_complete t;
     poll_count := poll_count t;
     poll_interval_level := poll_interval_level t;
     poll_interval_s := poll_interval_s t;
     working_path := v;
     attrs := attrs t |}.
Definition set_attrs (v : gmap string PyVal) (t : BaseTask) : BaseTask :=
  {| task_id := task_id t;
     project_config := project_config t;
     task_config := task_config t;
     org_config := org_config t;
     logger := logger t;
     return_values := return_values t;
     result := result t;
     flow := flow t;
     name := name t;
     stepnum := stepnum t;
     debug_mode := debug_mode t;
     options := options t;
     poll_complete := poll_complete t;
     poll_count := poll_count t;
     poll_interval_level := poll_interval_level t;
     poll_interval_s := poll_interval_s t;
     working_path := working_path t;
     attrs := v |}.
Definition set_stack (v : option (list nat)) (w : World) : World :=
  {| stack := v;
     cwd := cwd w;
     output_to := output_to w;
     events := events w;
     CAPTURE_TASK_OUTPUT := CAPTURE_TASK_OUTPUT w |}.
Definition set_cwd (v : string) (w : World) : World :=
  {| stack := stack w;
     cwd := v;
     output_to := output_to w;
     events := events w;
     CAPTURE_TASK_OUTPUT := CAPTURE_TASK_OUTPUT w |}.
Definition set_output_to (v : option string) (w : World) : World :=
  {| stack := stack w;
     cwd := cwd w;
     output_to := v;
     events := events w;
     CAPTURE_TASK_OUTPUT := CAPTURE_TASK_OUTPUT w |}.
Definition set_events (v : list event) (w : World) : World :=
  {| stack := stack w;
     cwd := cwd w;
     output_to := output_to w;
     events := v;
     CAPTURE_TASK_OUTPUT := CAPTURE_TASK_OUTPUT w |}.

Definition on_self (f : BaseTask -> BaseTask) (s : State) : State :=
  {| self := f (self s); env := env s |}.
Definition on_env (f : World -> World) (s : State) : State :=
  {| self := self s; env := f (env s) |}.

(** ** The monad of methods

    A method runs in a state and ends in a value or a raised exception;
    what it did to the state before raising stays done. *)
Definition M (A : Type) : Type := State -> outcome A * State.

Definition ret {A} (a : A) : M A := fun s => (Ok a, s).
Definition raise {A} (e : exn) : M A := fun s => (Raise e, s).
Definition bind {A B} (m : M A) (k : A -> M B) : M B :=
  fun s =>
    match m s with
    | (Ok a, s1) => k a s1
    | (Raise e, s1) => (Raise e, s1)
    end.
Definition lift {A} (r : outcome A) : M A := fun s => (r, s).
Definition gets {A} (f : State -> A) : M A := fun s => (Ok (f s), s).
Definition modify (f : State -> State) : M unit := fun s => (Ok tt, f s).

Notation "'let*' x ':=' m 'in' k" := (bind m (fun x => k))
  (at level 10, x name, m at level 100, k at level 200).
Notation "'run' m 'then' k" := (bind m (fun _ => k))
  (at level 10, m at level 100, k at level 200).

(** [try: body finally: cleanup].  The cleanup runs on every exit path; the
    body's outcome stands unless the cleanup itself raises. *)
Definition try_finally {A} (body : M A) (cleanup : M unit) : M A :=
  fun s =>
    match body s with
    | (r, s1) =>
        match cleanup s1 with
        | (Ok _, s2) => (r, s2)
        | (Raise e, s2) => (Raise e, s2)
        end
    end.

(** [self.options[key]] *)
Definition getitem (key : string) : M PyVal :=
  fun s =>
    match options (self s) !! key with
    | Some v => (Ok v, s)
    | None => (Raise (KeyError key), s)
    end.

(** [self.options[key] = v] *)
Definition setitem (key : string) (v : PyVal) : M unit :=
  modify (on_self (fun t => set_options (<[key := v]> (options t)) t)).

Definition emit (e : event) : M unit :=
  modify (on_env (fun w => set_events (events w ++ [e])%list w)).

(** [self.logger.info(msg)] and [self.logger.warning(msg)] *)
Definition logger_info (msg : string) : M unit := emit (Log INFO msg).
Definition logger_warning (msg : string) : M unit := emit (Log WARNING msg).

(** [time.sleep(v)]: a number is required, and a negative one is refused.
    The numbers of the embedding are the integers.  The platform also
    refuses, with [OverflowError], more seconds than its clock can count
    ([max_sleep] below); the function does not show this, and the properties
    of the retry loop keep the seconds that they sleep within that limit. *)
Definition time_sleep (v : PyVal) : M unit :=
  match py_as_int v with
  | None => raise TypeError
  | Some z => if z <? 0 then raise ValueError else emit (Sleep z)
  end.

(** The seconds slept, in order. *)
Definition sleeps (evs : list event) : list Z :=
  omap (fun e => match e with Sleep z => Some z | _ => None end) evs.

(** ** Option templating *)

(** [\w] on ASCII text: letters, digits and the underscore. *)
Definition is_word (c : ascii) : bool :=
  let n := nat_of_ascii c in
  ((48 <=? n) && (n <=? 57) || (65 <=? n) && (n <=? 90)
   || (97 <=? n) && (n <=? 122) || (n =? 95))%nat.

(** A literal at the start of [s]: what follows it. *)
Fixpoint match_literal (lit s : string) : option string :=
  match lit, s with
  | EmptyString, _ => Some s
  | String a lit', String b s' =>
      if Ascii.eqb a b then match_literal lit' s' else None
  | String _ _, EmptyString => None
  end.

(** [\w*], greedy: the longest run of word characters and what follows. *)
Fixpoint take_word (s : string) : string * string :=
  match s with
  | EmptyString => (EmptyString, EmptyString)
  | String c s' =>
      if is_word c
      then let '(w, r) := take_word s' in (String c w, r)
      else (EmptyString, s)
  end.

Definition newline : ascii := ascii_of_nat 10.

(** One attempt of [PROJECT_CONFIG_RE = \$project_config.(\w+)] at the
    start of [s]: group 1 and the text after the match.  The dot of the
    expression is not escaped: it takes any character but a newline.  A
    character is one byte here, as it is in ASCII text. *)
Definition match_here (s : string) : option (string * string) :=
  match match_literal "$project_config" s with
  | Some (String c r) =>
      if Ascii.eqb c newline then None
      else
        match take_word r with
        | (EmptyString, _) => None
        | (group1, rest) => Some (group1, rest)
        end
  | _ => None
  end.

(** [PROJECT_CONFIG_RE.sub(repl, s)]: leftmost matches, none overlapping,
    each replaced by [repl] of its group; the scan resumes after the match
    and the replacement is not scanned again.  [fuel] bounds the number of
    positions visited. *)
Fixpoint re_sub (repl : string -> string) (fuel : nat) (s : string) : string :=
  match fuel with
  | O => s
  | S fuel' =>
      match match_here s with
      | Some (group1, rest) => repl group1 +:+ re_sub repl fuel' rest
      | None =>
          match s with
          | EmptyString => EmptyString
          | String c s' => String c (re_sub repl fuel' s')
          end
      end
  end.

Definition PROJECT_CONFIG_RE_sub (repl : string -> string) (s : string) : string :=
  re_sub repl (S (String.length s)) s.

(** [getattr(project_config, name, default)]: [attrs] holds what the
    project configuration shows under each name.  The attributes that
    [None] itself has, such as [__class__], are not part of the embedding:
    without a project configuration every name gives the default. *)
Definition getattr (pc : option ProjectConfig.t) (name : string)
    (default : PyVal) : PyVal :=
  match pc with
  | Some c =>
      match ProjectConfig.attrs c !! name with
      | Some v => v
      | None => default
      end
  | None => default
  end.

(** The body of the loop of [_init_options] for one value. *)
Definition resolve (pc : option ProjectConfig.t) (value : PyVal) : PyVal :=
  match value with
  | VStr s =>
      VStr (PROJECT_CONFIG_RE_sub (fun group1 => py_str (getattr pc group1 VNone)) s)
  | _ => value
  end.

(** [_init_options(kwargs)]: copy the task config's options, update them
    with the keyword arguments, then rewrite every value in place. *)
Definition _init_options (kwargs : gmap string PyVal) (t : BaseTask) : BaseTask :=
  let copied :=
    match TaskConfig.options (task_config t) with
    | None => ∅
    | Some o => o
    end in
  let updated := if bool_decide (kwargs = ∅) then copied else kwargs ∪ copied in
  set_options (resolve (project_config t) <$> updated) t.

(** ** Option validation *)

(** A schema is the class attribute [task_options]: its items in
    declaration order, each a name and a descriptor dictionary. *)
Abbreviation schema := (list (string * gmap string PyVal)).

(** [name not in self.options] *)
Definition absent (name : string) (opts : gmap string PyVal) : bool :=
  match opts !! name with
  | None => true
  | Some _ => false
  end.

(** The list [missing_required] that the loop of [_validate_options]
    builds. *)
Fixpoint missing_required (task_options : schema) (opts : gmap string PyVal)
    : list string :=
  match task_options with
  | [] => []
  | (name, config) :: rest =>
      if is_True (config !! "required") && absent name opts
      then name :: missing_required rest opts
      else missing_required rest opts
  end.

Definition requires_message (class_name : string) (missing : list string) : string :=
  class_name +:+ " requires the options (" +:+ String.concat "," missing
    +:+ ") and no values were provided".

Definition _validate_options (class_name : string) (task_options : schema)
    (t : BaseTask) : outcome unit :=
  match missing_required task_options (options t) with
  | [] => Ok tt
  | missing => Raise (TaskOptionsError (requires_message class_name missing))
  end.

(** ** Task classes *)

(** What a class in the hierarchy fixes: its name, its class attributes and
    the methods a subclass may override. *)
Record TaskClass := {
  class_name : string;
  task_options : schema;
  salesforce_task : bool;
  _update_credentials : M unit;
  _init_task : M unit;
  _run_task : M PyVal;
  _try : M unit;
  _is_retry_valid : exn -> State -> bool;
  _poll_action : M unit
}.

Definition not_implemented {A} : M A :=
  raise (NotImplementedError "Subclasses should provide their own implementation").

(** [class BaseTask] *)
Definition BaseTaskClass : TaskClass :=
  {| class_name := "BaseTask";
     task_options := [];
     salesforce_task := false;
     _update_credentials := ret tt;
     _init_task := ret tt;
     _run_task := not_implemented;
     _try := not_implemented;
     _is_retry_valid := fun _ _ => true;
     _poll_action := not_implemented |}.

(** ** Construction *)

Definition _reset_poll (t : BaseTask) : BaseTask :=
  set_poll_interval_s 1
    (set_poll_interval_level 0 (set_poll_count 0 (set_poll_complete false t))).

Definition _init_logger (cls : TaskClass) (flow : option Flow.t) : string :=
  match flow with
  | Some f => Flow.logger f +:+ "." +:+ class_name cls
  | None => "cumulusci.core.tasks"
  end.

(** [__init__].  [identity] is the identity of the object being built and
    [get_debug_mode] what the function of that name returns. *)
Definition __init__ (cls : TaskClass) (identity : nat) (get_debug_mode : bool)
    (project_config : option ProjectConfig.t) (task_config : TaskConfig.t)
    (org_config : option OrgConfig.t) (flow : option Flow.t)
    (name stepnum : PyVal) (logger : option string)
    (kwargs : gmap string PyVal) : outcome BaseTask :=
  let t :=
    _reset_poll
      {| task_id := identity;
         project_config := project_config;
         task_config := task_config;
         org_config := org_config;
         logger := match logger with
                   | Some l => l
                   | None => _init_logger cls flow
                   end;
         return_values := ∅;
         result := VNone;
         flow := flow;
         name := name;
         stepnum := stepnum;
         debug_mode := get_debug_mode;
         options := ∅;
         poll_complete := false;
         poll_count := 0;
         poll_interval_level := 0;
         poll_interval_s := 1;
         working_path := None;
         attrs := ∅ |} in
  let t := _init_options kwargs t in
  match _validate_options (class_name cls) (task_options cls) t with
  | Ok _ => Ok t
  | Raise e => Raise e
  end.

(** ** Invocation *)

(** A context manager written as a generator under
    [@contextlib.contextmanager]: [enter] is the code before [yield], whose
    local variables [exit], the code of the [finally] clause, still sees. *)
Record ContextManager := {
  resource : Type;
  enter : M resource;
  exit : resource -> M unit
}.

(** [with cm: inner] *)
Definition with_ {A} (cm : ContextManager) (inner : M A) : M A :=
  let* x := enter cm in
  try_finally inner (exit cm x).

(** [nullcontext()] *)
Definition nullcontext : ContextManager :=
  {| resource := unit; enter := ret tt; exit := fun _ => ret tt |}.

(** [CURRENT_TASK.stack.pop()] *)
Definition stack_pop : M unit :=
  fun s =>
    match stack (env s) with
    | Some l =>
        match l with
        | [] => (Raise IndexError, s)
        | _ :: _ => (Ok tt, on_env (set_stack (Some (removelast l))) s)
        end
    | None => (Raise (AttributeError "stack"), s)
    end.

(** [stacked_task(task)], [task] being [self]. *)
Definition stacked_task : ContextManager :=
  {| resource := unit;
     enter :=
       run modify (on_env (fun w =>
             match stack w with
             | None => set_stack (Some []) w
             | Some _ => w
             end)) then
       modify (fun s => on_env (fun w =>
             set_stack (Some (default [] (stack w) ++ [task_id (self s)])%list) w) s);
     exit := fun _ => stack_pop |}.

(** The task on top of the stack and the depth of the stack. *)
Definition stack_top (w : World) : option nat := last (default [] (stack w)).
Definition stack_depth (w : World) : nat := List.length (default [] (stack w)).

(** Modelled from the spec: [cumulusci.utils.cd], whose source is not part
    of this module.  Section 4.3, step 5: remember the caller's current
    directory, scope execution to the given directory if one is configured,
    and restore the original directory unconditionally on exit. *)
Definition cd (path : PyVal) : ContextManager :=
  {| resource := string;
     enter :=
       let* original := gets (fun s => cwd (env s)) in
       run (if py_truthy path
            then modify (on_env (set_cwd (py_str path)))
            else ret tt) then
       ret original;
     exit := fun original => modify (on_env (set_cwd original)) |}.

(** Modelled from the spec: [redirect_output_to_logger], whose source is
    not part of this module.  Section 4.3, step 6: standard output is
    captured into the task's logger for the duration of the scope. *)
Definition redirect_output_to_logger (logger : string) : ContextManager :=
  {| resource := option string;
     enter :=
       let* previous := gets (fun s => output_to (env s)) in
       run modify (on_env (set_output_to (Some logger))) then
       ret previous;
     exit := fun previous => modify (on_env (set_output_to previous)) |}.

Definition _log_begin (cls : TaskClass) : M unit :=
  run logger_info ("Beginning task: " +:+ class_name cls) then
  run (fun s =>
     if salesforce_task cls && negb (bool_decide (is_Some (flow (self s))))
     then
       match org_config (self s) with
       | Some org =>
           (run logger_info ("As user: " +:+ py_str (OrgConfig.username org)) then
            logger_info ("In org: " +:+ py_str (OrgConfig.org_id org))) s
       | None => (Raise (AttributeError "username"), s)
       end
     else (Ok tt, s)) then
  logger_info EmptyString.

(** [self.project_config.repo_root if self.project_config else None] *)
Definition repo_root_or_None : M PyVal :=
  fun s =>
    match project_config (self s) with
    | Some pc =>
        match ProjectConfig.attrs pc !! "repo_root" with
        | Some v => (Ok v, s)
        | None => (Raise (AttributeError "repo_root"), s)
        end
    | None => (Ok VNone, s)
    end.

Definition requires_org_message : string :=
  "This task requires a salesforce org. "
  +:+ "Use org default <name> to set a default org "
  +:+ "or pass the org name with the --org option".

(** The block under the three [with] statements of [__call__]. *)
Definition call_block (cls : TaskClass) : M (gmap string PyVal) :=
  run _log_begin cls then
  let* r := _run_task cls in
  run modify (on_self (set_result r)) then
  gets (fun s => return_values (self s)).

(** [redirect_output_to_logger(self.logger) if CAPTURE_TASK_OUTPUT else
    nullcontext()] *)
Definition capture_context : M ContextManager :=
  gets (fun s =>
    if CAPTURE_TASK_OUTPUT (env s)
    then redirect_output_to_logger (logger (self s))
    else nullcontext).

Definition __call__ (cls : TaskClass) : M (gmap string PyVal) :=
  fun s =>
    if salesforce_task cls && negb (bool_decide (is_Some (org_config (self s))))
    then (Raise (TaskRequiresSalesforceOrg requires_org_message), s)
    else
      (run _update_credentials cls then
       run _init_task cls then
       with_ stacked_task
         (run modify (fun s => on_self (set_working_path (Some (cwd (env s)))) s) then
          let* path := repo_root_or_None in
          with_ (cd path)
            (let* capture := capture_context in
             with_ capture (call_block cls)))) s.

(** ** The retry loop *)

(** The [except Exception as e] block of [_retry]: it either raises, which
    ends the loop, or returns, which starts the next attempt. *)
Definition retry_handler (cls : TaskClass) (e : exn) : M unit :=
  let* retries := getitem "retries" in
  let* valid :=
    (if py_truthy retries
     then gets (fun s => _is_retry_valid cls e s)
     else ret false) in
  if negb valid then raise e
  else
    let* interval := getitem "retry_interval" in
    run (if py_truthy interval
         then
           let* shown := getitem "retry_interval" in
           run logger_warning
             ("Sleeping for " +:+ py_str shown +:+ " seconds before retry...") then
           let* seconds := getitem "retry_interval" in
           run time_sleep seconds then
           let* add := getitem "retry_interval_add" in
           if py_truthy add
           then
             let* current := getitem "retry_interval" in
             let* increment := getitem "retry_interval_add" in
             let* sum := lift (py_add current increment) in
             setitem "retry_interval" sum
           else ret tt
         else ret tt) then
    let* remaining := getitem "retries" in
    let* decremented := lift (py_sub remaining (VInt 1)) in
    run setitem "retries" decremented then
    let* shown := getitem "retries" in
    logger_warning ("Retrying (" +:+ py_str shown +:+ " attempts remaining)").

(** [_retry]: [while True] runs as long as [fuel] lasts; [None] means the
    loop was still running when the fuel ran out. *)
Fixpoint _retry (cls : TaskClass) (fuel : nat) (s : State)
    : option (outcome unit * State) :=
  match fuel with
  | O => None
  | S fuel' =>
      match _try cls s with
      | (Ok _, s1) => Some (Ok tt, s1)
      | (Raise e, s1) =>
          match retry_handler cls e s1 with
          | (Ok _, s2) => _retry cls fuel' s2
          | (Raise e', s2) => Some (Raise e', s2)
          end
      end
  end.

(** ** The poll loop *)

Definition _poll_update_interval : M unit :=
  fun s =>
    if poll_interval_level (self s) <? poll_count (self s) / 3
    then
      (run modify (on_self (fun t =>
             set_poll_interval_level (poll_interval_level t + 1) t)) then
       run modify (on_self (fun t =>
             set_poll_interval_s (poll_interval_s t + 1) t)) then
       let* seconds := gets (fun s => poll_interval_s (self s)) in
       logger_info
         ("Increased polling interval to " +:+ pretty seconds +:+ " seconds")) s
    else (Ok tt, s).

(** [_poll], with [fuel] as in [_retry]. *)
Fixpoint _poll (cls : TaskClass) (fuel : nat) (s : State)
    : option (outcome unit * State) :=
  match fuel with
  | O => None
  | S fuel' =>
      let s0 := on_self (fun t => set_poll_count (poll_count t + 1) t) s in
      match _poll_action cls s0 with
      | (Raise e, s1) => Some (Raise e, s1)
      | (Ok _, s1) =>
          if poll_complete (self s1) then Some (Ok tt, s1)
          else
            match (run time_sleep (VInt (poll_interval_s (self s1))) then
                   _poll_update_interval) s1 with
            | (Raise e, s2) => Some (Raise e, s2)
            | (Ok _, s2) => _poll cls fuel' s2
            end
      end
  end.

(** ** Freezing *)

(** The values of a UI step: plain values, and the nested block
    [{"options": ..., "checks": ...}]. *)
Inductive UIVal :=
| UVal (v : PyVal)
| UTaskConfig (options : gmap string PyVal) (checks : list PyVal).

(** [checks or []] *)
Definition checks_or_empty (checks : option (list PyVal)) : list PyVal :=
  match checks with
  | Some (c :: l) => c :: l
  | _ => []
  end.

(** [d.update(other)]: the keys of [other] win. *)
Definition dict_update {V} (d other : gmap string V) : gmap string V := other ∪ d.

Definition freeze (t : BaseTask) (step : Step.t) : list (gmap string UIVal) :=
  let ui_step : gmap string UIVal :=
    <["is_required" := UVal (VBool true)]>
      (<["kind" := UVal (VStr "other")]>
         (<["name" := UVal (py_or (TaskConfig.name (task_config t)) (name t))]> ∅)) in
  let ui_step :=
    dict_update ui_step
      (UVal <$> default ∅ (TaskConfig.ui_options (task_config t))) in
  let task_config_block :=
    UTaskConfig (options t) (checks_or_empty (TaskConfig.checks (task_config t))) in
  let ui_step :=
    dict_update ui_step
      (<["source" := UVal (Step.source step)]>
         (<["task_config" := task_config_block]>
            (<["task_class" := UVal (TaskConfig.class_path (task_config t))]>
               (<["step_num" := UVal (VStr (py_str (Step.step_num step)))]>
                  (<["path" := UVal (Step.path step)]> ∅))))) in
  [ui_step].

(** ** [class BaseSalesforceTask] *)

Section BaseSalesforceTask.
(** [cumulusci.__version__] *)
Variable __version__ : string.

Definition _get_client_name (t : BaseTask) : outcome PyVal :=
    match project_config t with
    | None => Raise (AttributeError "keychain")
    | Some pc =>
        match ProjectConfig.keychain pc with
        | None => Raise (AttributeError "keychain")
        | Some keychain =>
            match Keychain.get_service keychain "connectedapp" with
            | Ok app => Ok (Service.client_id app)
            | Raise (ServiceNotValid _) | Raise (ServiceNotConfigured _) =>
                Ok (VStr ("CumulusCI/" +:+ __version__))
            | Raise e => Raise e
            end
        end
    end.
End BaseSalesforceTask.

(** Modelled from the spec: [org_config.save_if_changed] and
    [org_config.refresh_oauth_token], whose sources are not part of this
    module.  Section 4.3, step 2: the org session is refreshed; the refresh
    is recorded as an event. *)
Definition refresh_credentials : M unit :=
  fun s =>
    match org_config (self s) with
    | Some org => emit (RefreshToken (OrgConfig.username org)) s
    | None => (Raise (AttributeError "save_if_changed"), s)
    end.

Definition BaseSalesforceTaskClass : TaskClass :=
  {| class_name := "BaseSalesforceTask";
     task_options := [];
     salesforce_task := true;
     _update_credentials := refresh_credentials;
     _init_task := ret tt;
     _run_task := not_implemented;
     _try := not_implemented;
     _is_retry_valid := fun _ _ => true;
     _poll_action := not_implemented |}.

(** * Vocabulary of the properties and sample tasks *)

(** ** Option validation *)

(** A name is marked required by a schema when one of its descriptors for
    that name carries [required: True]. *)
Definition marked_required (task_options : schema) (name : string) : Prop :=
  ∃ config, In (name, config) task_options
            ∧ config !! "required" = Some (VBool true).

(** The options a constructor call resolves to: the task config's options,
    overridden by the keyword arguments, after templating. *)
Definition resolved_options (pc : option ProjectConfig.t) (tc : TaskConfig.t)
    (kwargs : gmap string PyVal) : gmap string PyVal :=
  resolve pc <$> (kwargs ∪ default ∅ (TaskConfig.options tc)).

(** A class whose schema has one descriptor, and a task config with nothing
    but options. *)
Definition requiring (name : string) (required : PyVal) : TaskClass :=
  {| class_name := "Deploy";
     task_options := [(name, {["required" := required]})];
     salesforce_task := false;
     _update_credentials := ret tt; _init_task := ret tt;
     _run_task := not_implemented; _try := not_implemented;
     _is_retry_valid := fun _ _ => true; _poll_action := not_implemented |}.

Definition bare_config (opts : option (gmap string PyVal)) : TaskConfig.t :=
  {| TaskConfig.name := VNone; TaskConfig.class_path := VNone;
     TaskConfig.options := opts; TaskConfig.checks := None;
     TaskConfig.ui_options := None |}.

(** ** Option templating *)

(** Text made of word characters only, and text that begins with one. *)
Fixpoint all_word (s : string) : bool :=
  match s with
  | EmptyString => true
  | String c s' => is_word c && all_word s'
  end.

Definition starts_with_word (s : string) : bool :=
  match s with
  | EmptyString => false
  | String c _ => is_word c
  end.

(** ** Sample tasks and configurations *)

(** A project configuration with the given attributes, a task as
    [__init__] leaves it, and a process that has run no task yet. *)
Definition project_with (attrs : gmap string PyVal) : option ProjectConfig.t :=
  Some {| ProjectConfig.attrs := attrs; ProjectConfig.keychain := None |}.

Definition sample_task (org : option OrgConfig.t) : BaseTask :=
  {| task_id := 7%nat;
     project_config := project_with {["repo_root" := VStr "/repo"]};
     task_config := bare_config None;
     org_config := org;
     logger := "cumulusci.core.tasks";
     return_values := ∅;
     result := VNone;
     flow := None;
     name := VStr "deploy";
     stepnum := VNone;
     debug_mode := false;
     options := ∅;
     poll_complete := false;
     poll_count := 0;
     poll_interval_level := 0;
     poll_interval_s := 1;
     working_path := None;
     attrs := ∅ |}.

Definition sample_world : World :=
  {| stack := None; cwd := "/home/dev"; output_to := None; events := [];
     CAPTURE_TASK_OUTPUT := false |}.

(** A keychain that answers every lookup the same way, and a task of a
    project that has it. *)
Definition keychain_of (lookup : outcome Service.t) : Keychain.t :=
  {| Keychain.get_service := fun _ => lookup |}.

Definition project_of (kc : Keychain.t) : ProjectConfig.t :=
  {| ProjectConfig.attrs := ∅; ProjectConfig.keychain := Some kc |}.

Definition task_in (pc : ProjectConfig.t) : BaseTask :=
  {| task_id := 1%nat; project_config := Some pc; task_config := bare_config None;
     org_config := None; logger := "cumulusci.core.tasks"; return_values := ∅;
     result := VNone; flow := None; name := VNone; stepnum := VNone;
     debug_mode := false; options := ∅; poll_complete := false; poll_count := 0;
     poll_interval_level := 0; poll_interval_s := 1; working_path := None;
     attrs := ∅ |}.

(** ** Freezing *)

(** The value a key takes from the [ui_options] block when the block has
    it, and a default otherwise. *)
Definition overridable (ui_options : option (gmap string PyVal)) (key : string)
    (fallback : PyVal) : UIVal :=
  match default ∅ ui_options !! key with
  | Some v => UVal v
  | None => UVal fallback
  end.

(** The keys that [freeze] sets last. *)
Definition fixed_keys : list string :=
  ["path"; "step_num"; "task_class"; "task_config"; "source"].

(** A task with the options [{"tag": "release/1.0"}] and a step at path
    [force_deploy]. *)
Definition release_task (ui_options : option (gmap string PyVal)) : BaseTask :=
  {| task_id := 3%nat; project_config := None;
     task_config :=
       {| TaskConfig.name := VStr "deploy";
          TaskConfig.class_path := VStr "cumulusci.tasks.salesforce.Deploy";
          TaskConfig.options := Some {["tag" := VStr "release/1.0"]};
          TaskConfig.checks := None;
          TaskConfig.ui_options := ui_options |};
     org_config := None; logger := "cumulusci.core.tasks"; return_values := ∅;
     result := VNone; flow := None; name := VStr "deploy_step"; stepnum := VNone;
     debug_mode := false; options := {["tag" := VStr "release/1.0"]};
     poll_complete := false; poll_count := 0; poll_interval_level := 0;
     poll_interval_s := 1; working_path := None; attrs := ∅ |}.

Definition release_step : Step.t :=
  {| Step.path := VStr "force_deploy"; Step.step_num := VStr "1";
     Step.source := VNone |}.

(** ** The scopes of an invocation *)

(** A method keeps the stack when it leaves the task stack as it found it,
    as a body does whose nested invocations are all complete when it ends. *)
Definition keeps_stack {A} (m : M A) : Prop :=
  ∀ s, stack (env (snd (m s))) = stack (env s).
(** Likewise for the working directory. *)
Definition keeps_cwd {A} (m : M A) : Prop :=
  ∀ s, cwd (env (snd (m s))) = cwd (env s).

(** The states the three [with] statements pass through on the way in. *)
Definition pushed (s : State) : State :=
  on_self (set_working_path (Some (cwd (env s))))
    (on_env (set_stack (Some (default [] (stack (env s)) ++ [task_id (self s)])%list)) s).
Definition changed_dir (path : PyVal) (s : State) : State :=
  if py_truthy path then on_env (set_cwd (py_str path)) s else s.
Definition captured (s : State) : State :=
  if CAPTURE_TASK_OUTPUT (env s)
  then on_env (set_output_to (Some (logger (self s)))) s
  else s.
(** ... and the way out of the innermost one. *)
Definition released (before s : State) : State :=
  if CAPTURE_TASK_OUTPUT (env before)
  then on_env (set_output_to (output_to (env before))) s
  else s.

(** The innermost [with] statement of [__call__]. *)
Definition capture_scope (cls : TaskClass) : M (gmap string PyVal) :=
  let* capture := capture_context in
  with_ capture (call_block cls).

(** The part of [__call__] under [with stacked_task(self)], and what it does
    before it calls [_run_task]. *)
Definition scoped_call (cls : TaskClass) : M (gmap string PyVal) :=
  with_ stacked_task
    (run modify (fun s => on_self (set_working_path (Some (cwd (env s)))) s) then
     let* path := repo_root_or_None in
     with_ (cd path) (capture_scope cls)).

Definition scoped_entry (cls : TaskClass) : M unit :=
  run enter stacked_task then
  run modify (fun s => on_self (set_working_path (Some (cwd (env s)))) s) then
  let* path := repo_root_or_None in
  let* original := enter (cd path) in
  let* capture := capture_context in
  let* previous := enter capture in
  _log_begin cls.

(** Everything [__call__] does before it calls [_run_task]. *)
Definition before_body (cls : TaskClass) : M unit :=
  fun s =>
    if salesforce_task cls && negb (bool_decide (is_Some (org_config (self s))))
    then (Raise (TaskRequiresSalesforceOrg requires_org_message), s)
    else
      (run _update_credentials cls then
       run _init_task cls then
       scoped_entry cls) s.

(** A body that leaves the project root and then fails. *)
Definition WanderingTask : TaskClass :=
  {| class_name := "WanderingTask";
     task_options := [];
     salesforce_task := false;
     _update_credentials := ret tt;
     _init_task := ret tt;
     _run_task :=
       run modify (on_env (set_cwd "/tmp")) then
       raise (OtherError "RuntimeError" "boom");
     _try := not_implemented;
     _is_retry_valid := fun _ _ => true;
     _poll_action := not_implemented |}.

Definition sample_state : State :=
  {| self := sample_task None; env := sample_world |}.

(** ** The retry loop *)

(** What one pass through the [except] block does to the interval [v] when
    [retry_interval_add] is the integer [A], and the seconds it sleeps. *)
Definition next_interval (A : Z) (v : PyVal) : PyVal :=
  match v with
  | VInt d => if d =? 0 then v else VInt (d + A)
  | _ => v
  end.
Definition slept (v : PyVal) : list Z :=
  match v with
  | VInt d => if d =? 0 then [] else [d]
  | _ => []
  end.
(** The most whole seconds that [time.sleep] takes: a nanosecond count past
    63 bits makes it raise [OverflowError]. *)
Definition max_sleep : Z := 9223372036.
(** The intervals a pass can work with: a falsy value, or a positive
    number of seconds. *)
Definition usable_interval (v : PyVal) : Prop :=
  py_truthy v = false ∨ ∃ d, v = VInt d ∧ 0 < d.

(** The step of a task, seen through the attributes of the instance:
    [Inv n] holds of them when the step has been called [n] times, the call
    after that ends as [outcome_of n] says, and the step itself neither
    sleeps nor touches the options. *)
Definition step_behaves (cls : TaskClass)
    (Inv : nat → gmap string PyVal → Prop)
    (outcome_of : nat → outcome unit) : Prop :=
  ∀ n s, Inv n (attrs (self s)) →
    ∃ s', _try cls s = (outcome_of n, s')
          ∧ Inv (S n) (attrs (self s'))
          ∧ options (self s') = options (self s)
          ∧ sleeps (events (env s')) = sleeps (events (env s)).

(** The intervals that [k] passes through the [except] block find, one
    after the other. *)
Fixpoint intervals (A : Z) (v : PyVal) (k : nat) : list PyVal :=
  match k with
  | O => []
  | S k' => v :: intervals A (next_interval A v) k'
  end.

(** The loop ends with attempt [k + 1] when the first [k] attempts fail and
    that one succeeds or finds no retries left. *)
Definition ends_after (outcome_of : nat → outcome unit) (N k : nat) : Prop :=
  (k ≤ N)%nat
  ∧ (∀ n, (n < k)%nat → is_Ok (outcome_of n) = false)
  ∧ (outcome_of k = Ok tt ∨ k = N).

(** The number of calls that a step or a probe has recorded on the
    instance. *)
Definition calls_made (attrs : gmap string PyVal) : nat :=
  match attrs !! "calls" with
  | Some (VInt n) => Z.to_nat n
  | _ => 0%nat
  end.

(** A step that counts its calls on the instance and fails the first
    [failures] times. *)
Definition flaky_outcome (failures n : nat) : outcome unit :=
  if (n <? failures)%nat then Raise (OtherError "Timeout" "try again") else Ok tt.

Definition flaky_try (failures : nat) : M unit :=
  fun s =>
    let n := calls_made (attrs (self s)) in
    (flaky_outcome failures n,
     on_self (fun t =>
       set_attrs (<["calls" := VInt (Z.of_nat (S n))]> (attrs t)) t) s).

Definition FlakyTask (failures : nat) : TaskClass :=
  {| class_name := "FlakyTask";
     task_options := [];
     salesforce_task := false;
     _update_credentials := ret tt;
     _init_task := ret tt;
     _run_task := not_implemented;
     _try := flaky_try failures;
     _is_retry_valid := fun _ _ => true;
     _poll_action := not_implemented |}.

(** A task with [retries = 3], an interval of 5 seconds and an increment of
    30. *)
Definition retry_state : State :=
  {| self :=
       set_options
         {["retries" := VInt 3; "retry_interval" := VInt 5;
           "retry_interval_add" := VInt 30]}
         (sample_task None);
     env := sample_world |}.

(** ** The poll loop *)

(** The probe of a task, seen through the attributes of the instance:
    [Inv n] holds of them when the probe has been called [n] times; a call
    returns, sets [poll_complete] on call number [M] and on no other, and
    leaves the counters of the loop and the clock alone. *)
Definition probe_behaves (cls : TaskClass)
    (Inv : nat → gmap string PyVal → Prop) (M : nat) : Prop :=
  ∀ n s, Inv n (attrs (self s)) → poll_complete (self s) = false →
    ∃ s', _poll_action cls s = (Ok tt, s')
          ∧ Inv (S n) (attrs (self s'))
          ∧ poll_complete (self s') = (S n =? M)%nat
          ∧ poll_count (self s') = poll_count (self s)
          ∧ poll_interval_level (self s') = poll_interval_level (self s)
          ∧ poll_interval_s (self s') = poll_interval_s (self s)
          ∧ sleeps (events (env s')) = sleeps (events (env s)).

(** The seconds slept after poll number [n]: [n / 3], rounded up. *)
Definition sleep_after (n : nat) : Z := (Z.of_nat n + 2) / 3.

(** The state of the loop when [n] polls have been made and none has
    completed. *)
Definition polled (Inv : nat → gmap string PyVal → Prop) (n : nat) (s : State) : Prop :=
  Inv n (attrs (self s))
  ∧ poll_complete (self s) = false
  ∧ poll_count (self s) = Z.of_nat n
  ∧ poll_interval_level (self s) = Z.of_nat n / 3
  ∧ poll_interval_s (self s) = 1 + Z.of_nat n / 3.

(** A probe that counts its calls on the instance and reports completion on
    call number [final]. *)
Definition counting_probe (final : nat) : M unit :=
  fun s =>
    let n := S (calls_made (attrs (self s))) in
    (Ok tt,
     on_self (fun t =>
       (if (n =? final)%nat then set_poll_complete true else fun t => t)
         (set_attrs (<["calls" := VInt (Z.of_nat n)]> (attrs t)) t)) s).

Definition PollingTask (final : nat) : TaskClass :=
  {| class_name := "PollingTask";
     task_options := [];
     salesforce_task := false;
     _update_credentials := ret tt;
     _init_task := ret tt;
     _run_task := not_implemented;
     _try := not_implemented;
     _is_retry_valid := fun _ _ => true;
     _poll_action := counting_probe final |}.

(** ** Further vocabulary *)

(** Text in which a dollar sign occurs. *)
Fixpoint has_dollar (s : string) : bool :=
  match s with
  | EmptyString => false
  | String c s' => Ascii.eqb c "$" || has_dollar s'
  end.

(** The characters of ASCII, on which [is_word] is [\w] and a character is
    one byte; text made of them; and text at which an identifier ends: no
    text at all, or text whose first character is one of ASCII that is not
    a word character. *)
Definition ascii_char (c : ascii) : bool := (nat_of_ascii c <? 128)%nat.
Fixpoint all_ascii (s : string) : bool :=
  match s with
  | EmptyString => true
  | String c s' => ascii_char c && all_ascii s'
  end.
Definition ends_identifier (s : string) : bool :=
  match s with
  | EmptyString => true
  | String c _ => ascii_char c && negb (is_word c)
  end.

(** A class like [FlakyTask] whose predicate accepts no error. *)
Definition StrictTask (failures : nat) : TaskClass :=
  {| class_name := "StrictTask";
     task_options := [];
     salesforce_task := false;
     _update_credentials := ret tt;
     _init_task := ret tt;
     _run_task := not_implemented;
     _try := flaky_try failures;
     _is_retry_valid := fun _ _ => false;
     _poll_action := not_implemented |}.

(** A step that counts its calls on the instance and fails every time. *)
Definition hopeless_try : M unit :=
  fun s =>
    (Raise (OtherError "Timeout" "try again"),
     on_self (fun t =>
       set_attrs (<["calls" := VInt (Z.of_nat (S (calls_made (attrs t))))]> (attrs t)) t) s).

Definition HopelessTask : TaskClass :=
  {| class_name := "HopelessTask";
     task_options := [];
     salesforce_task := false;
     _update_credentials := ret tt;
     _init_task := ret tt;
     _run_task := not_implemented;
     _try := hopeless_try;
     _is_retry_valid := fun _ _ => true;
     _poll_action := not_implemented |}.

(** A method keeps the attributes that subclasses put on the instance. *)
Definition keeps_attrs {A} (m : M A) : Prop :=
  ∀ s, attrs (self (snd (m s))) = attrs (self s).

(** A probe that has not finished by call [M - 1]: each of these calls
    returns, leaves [poll_complete] unset and the counters and the clock
    alone. *)
Definition probe_pending (cls : TaskClass)
    (Inv : nat → gmap string PyVal → Prop) (M : nat) : Prop :=
  ∀ n s, Inv n (attrs (self s)) → poll_complete (self s) = false → (S n < M)%nat →
    ∃ s', _poll_action cls s = (Ok tt, s')
          ∧ Inv (S n) (attrs (self s'))
          ∧ poll_complete (self s') = false
          ∧ poll_count (self s') = poll_count (self s)
          ∧ poll_interval_level (self s') = poll_interval_level (self s)
          ∧ poll_interval_s (self s') = poll_interval_s (self s)
          ∧ sleeps (events (env s')) = sleeps (events (env s)).

(** A probe that counts its calls on the instance and raises on call number
    [final]. *)
Definition breaking_probe (final : nat) : M unit :=
  fun s =>
    let n := S (calls_made (attrs (self s))) in
    ((if (n =? final)%nat then Raise (OtherError "ApiError" "job failed") else Ok tt),
     on_self (fun t => set_attrs (<["calls" := VInt (Z.of_nat n)]> (attrs t)) t) s).

Definition BreakingTask (final : nat) : TaskClass :=
  {| class_name := "BreakingTask";
     task_options := [];
     salesforce_task := false;
     _update_credentials := ret tt;
     _init_task := ret tt;
     _run_task := not_implemented;
     _try := not_implemented;
     _is_retry_valid := fun _ _ => true;
     _poll_action := breaking_probe final |}.

(** The keys that every frozen step has. *)
Definition step_keys : gset string :=
  {["name"; "kind"; "is_required"; "path"; "step_num"; "task_class";
    "task_config"; "source"]}.

(** The two exceptions that [_get_client_name] handles. *)
Definition is_service_error (e : exn) : bool :=
  match e with
  | ServiceNotValid _ | ServiceNotConfigured _ => true
  | _ => false
  end.

(** A class whose credentials cannot be refreshed. *)
Definition ExpiredTask : TaskClass :=
  {| class_name := "ExpiredTask";
     task_options := [];
     salesforce_task := false;
     _update_credentials := raise (OtherError "OAuthError" "expired");
     _init_task := logger_info "initialised";
     _run_task := ret VNone;
     _try := not_implemented;
     _is_retry_valid := fun _ _ => true;
     _poll_action := not_implemented |}.

(** [self.return_values = v] *)
Definition set_return_values (v : gmap string PyVal) (t : BaseTask) : BaseTask :=
  {| task_id := task_id t;
     project_config := project_config t;
     task_config := task_config t;
     org_config := org_config t;
     logger := logger t;
     return_values := v;
     result := result t;
     flow := flow t;
     name := name t;
     stepnum := stepnum t;
     debug_mode := debug_mode t;
     options := options t;
     poll_complete := poll_complete t;
     poll_count := poll_count t;
     poll_interval_level := poll_interval_level t;
     poll_interval_s := poll_interval_s t;
     working_path := working_path t;
     attrs := attrs t |}.

(** A body that logs a line, stores a return value and returns. *)
Definition ReportingTask : TaskClass :=
  {| class_name := "ReportingTask";
     task_options := [];
     salesforce_task := false;
     _update_credentials := ret tt;
     _init_task := ret tt;
     _run_task :=
       run logger_info "working" then
       run modify (on_self (fun t =>
             set_return_values (<["version" := VStr "1.0"]> (return_values t)) t)) then
       ret (VInt 0);
     _try := not_implemented;
     _is_retry_valid := fun _ _ => true;
     _poll_action := not_implemented |}.

(** * Properties *)

(** ** Option validation *)

Lemma is_True_spec (v : option PyVal) :
  is_True v = true ↔ v = Some (VBool true).
Proof.
  destruct v as [[| [|] | | |]|]; simpl; split; congruence.
Qed.

Lemma absent_spec (name : string) (opts : gmap string PyVal) :
  absent name opts = true ↔ opts !! name = None.
Proof.
  unfold absent. destruct (opts !! name); split; congruence.
Qed.

Lemma missing_required_In (task_options : schema) (opts : gmap string PyVal)
    (name : string) :
  In name (missing_required task_options opts)
  ↔ marked_required task_options name ∧ opts !! name = None.
Proof.
  unfold marked_required.
  induction task_options as [|[n config] rest IH]; simpl.
  - split; [tauto|]. intros [(c & [] & _) _].
  - destruct (is_True (config !! "required") && absent n opts) eqn:E.
    + apply andb_true_iff in E as [Ht Ha].
      apply is_True_spec in Ht. apply absent_spec in Ha.
      simpl. rewrite IH. split.
      * intros [<-|[(c & Hin & Hc) Hn]].
        -- split; [exists config; auto | exact Ha].
        -- split; [exists c; auto | exact Hn].
      * intros [(c & [Heq|Hin] & Hc) Hn].
        -- left. congruence.
        -- right. split; [exists c; auto | exact Hn].
    + rewrite IH. split.
      * intros [(c & Hin & Hc) Hn]. split; [exists c; auto | exact Hn].
      * intros [(c & [Heq|Hin] & Hc) Hn].
        -- exfalso. inversion Heq; subst.
           apply is_True_spec in Hc. apply absent_spec in Hn.
           rewrite Hc, Hn in E. discriminate.
        -- split; [exists c; auto | exact Hn].
Qed.

Lemma missing_required_sublist (task_options : schema) (opts : gmap string PyVal) :
  missing_required task_options opts `sublist_of` map fst task_options.
Proof.
  induction task_options as [|[n config] rest IH]; simpl.
  - constructor.
  - destruct (is_True (config !! "required") && absent n opts).
    + now apply sublist_skip.
    + now apply sublist_cons.
Qed.

Lemma nonempty_has_member {A} (l : list A) : l ≠ [] → ∃ x, In x l.
Proof.
  destruct l as [|x l]; [congruence|]. intros _. exists x. now left.
Qed.

Lemma init_options_resolved (kwargs : gmap string PyVal) (t : BaseTask) :
  options (_init_options kwargs t)
  = resolved_options (project_config t) (task_config t) kwargs.
Proof.
  unfold _init_options, resolved_options. simpl.
  case_bool_decide as Hk.
  - rewrite Hk, (left_id_L ∅ (∪)).
    now destruct (TaskConfig.options (task_config t)).
  - now destruct (TaskConfig.options (task_config t)).
Qed.

(** What [__init__] returns, in terms of the list of missing names. *)
Lemma init_outcome (cls : TaskClass) identity dbg pc tc org fl nm num lg kwargs :
  match __init__ cls identity dbg pc tc org fl nm num lg kwargs with
  | Ok t =>
      missing_required (task_options cls) (resolved_options pc tc kwargs) = []
      ∧ options t = resolved_options pc tc kwargs
  | Raise e =>
      missing_required (task_options cls) (resolved_options pc tc kwargs) ≠ []
      ∧ e = TaskOptionsError
              (requires_message (class_name cls)
                 (missing_required (task_options cls)
                    (resolved_options pc tc kwargs)))
  end.
Proof.
  unfold __init__, _validate_options.
  rewrite init_options_resolved. simpl.
  destruct (missing_required _ _) eqn:E.
  - split; [reflexivity|]. apply init_options_resolved.
  - split; [discriminate | reflexivity].
Qed.

(** C3.  Construction raises [TaskOptionsError] exactly when some name the
    schema marks required is absent from the resolved options; the message
    then carries, comma-joined, a list that holds every such name and only
    those, in the order of the schema's declarations; otherwise construction
    returns the task with the resolved options. *)
Theorem init_raises_iff_required_missing
    (cls : TaskClass) identity dbg pc tc org fl nm num lg kwargs :
  let built := __init__ cls identity dbg pc tc org fl nm num lg kwargs in
  let resolved := resolved_options pc tc kwargs in
  ((∃ msg, built = Raise (TaskOptionsError msg))
   ↔ (∃ name, marked_required (task_options cls) name ∧ resolved !! name = None))
  ∧ (∀ e, built = Raise e →
       ∃ missing,
         e = TaskOptionsError
               (class_name cls +:+ " requires the options ("
                  +:+ String.concat "," missing
                  +:+ ") and no values were provided")
         ∧ (∀ name, In name missing
                    ↔ marked_required (task_options cls) name
                      ∧ resolved !! name = None)
         ∧ missing `sublist_of` map fst (task_options cls))
  ∧ ((∀ name, marked_required (task_options cls) name → resolved !! name ≠ None)
     → ∃ t, built = Ok t ∧ options t = resolved).
Proof.
  intros built resolved.
  pose proof (init_outcome cls identity dbg pc tc org fl nm num lg kwargs) as H.
  fold built resolved in H.
  pose proof (missing_required_In (task_options cls) resolved) as Hin.
  repeat split.
  - intros [msg Hb]. rewrite Hb in H. destruct H as [Hne _].
    destruct (nonempty_has_member _ Hne) as [n Hn].
    exists n. now apply Hin.
  - intros [n Hn]. apply Hin in Hn.
    destruct built as [t|e].
    + destruct H as [He _]. rewrite He in Hn. destruct Hn.
    + destruct H as [_ ->]. eauto.
  - intros e Hb. rewrite Hb in H. destruct H as [_ ->].
    exists (missing_required (task_options cls) resolved).
    split; [reflexivity|]. split; [exact Hin|].
    apply missing_required_sublist.
  - intros Hall. destruct built as [t|e].
    + exists t. now destruct H.
    + exfalso. destruct H as [Hne _].
      destruct (nonempty_has_member _ Hne) as [n Hn].
      apply Hin in Hn as [Hm Hnone]. exact (Hall n Hm Hnone).
Qed.

(** The scenario of the schema [{"x": {"required": True}}] built with no
    options. *)
Example init_without_x :
  __init__
    {| class_name := "Deploy";
       task_options := [("x", {["required" := VBool true]})];
       salesforce_task := false;
       _update_credentials := ret tt; _init_task := ret tt;
       _run_task := not_implemented; _try := not_implemented;
       _is_retry_valid := fun _ _ => true; _poll_action := not_implemented |}
    0%nat false None
    {| TaskConfig.name := VNone; TaskConfig.class_path := VNone;
       TaskConfig.options := None; TaskConfig.checks := None;
       TaskConfig.ui_options := None |}
    None None VNone VNone None ∅
  = Raise (TaskOptionsError
             "Deploy requires the options (x) and no values were provided").
Proof. vm_compute. reflexivity. Qed.

Lemma resolved_options_lookup pc tc kwargs (name : string) :
  resolved_options pc tc kwargs !! name = None
  ↔ (kwargs ∪ default ∅ (TaskConfig.options tc)) !! name = None.
Proof.
  unfold resolved_options. rewrite lookup_fmap.
  destruct (_ !! name); simpl; split; congruence.
Qed.

(** C10.  A name is among the missing ones exactly when it is absent from
    the options and a descriptor of it has [required] equal to the boolean
    [True]; construction fails on such a name: it raises [TaskOptionsError]
    with a message that lists the name, and lists a name only if it is
    absent and has such a descriptor; a schema none of whose descriptors
    has that very value (the integer 1 and a non-empty string are not it)
    never fails construction; and a key that is present, whatever its
    value, [None] included, satisfies the requirement. *)
Theorem required_only_when_identically_True :
  (∀ (task_options : schema) (opts : gmap string PyVal) (name : string),
     In name (missing_required task_options opts)
     ↔ (∃ config, In (name, config) task_options
                  ∧ config !! "required" = Some (VBool true))
       ∧ opts !! name = None)
  ∧ (∀ (cls : TaskClass) identity dbg pc tc org fl nm num lg kwargs name config,
       In (name, config) (task_options cls) →
       config !! "required" = Some (VBool true) →
       (kwargs ∪ default ∅ (TaskConfig.options tc)) !! name = None →
       ∃ missing,
         __init__ cls identity dbg pc tc org fl nm num lg kwargs
         = Raise (TaskOptionsError
                    (class_name cls +:+ " requires the options ("
                       +:+ String.concat "," missing
                       +:+ ") and no values were provided"))
         ∧ In name missing
         ∧ ∀ other, In other missing →
             (∃ config', In (other, config') (task_options cls)
                         ∧ config' !! "required" = Some (VBool true))
             ∧ (kwargs ∪ default ∅ (TaskConfig.options tc)) !! other = None)
  ∧ (∀ (cls : TaskClass) identity dbg pc tc org fl nm num lg kwargs,
       (∀ name config, In (name, config) (task_options cls) →
                       config !! "required" ≠ Some (VBool true)) →
       ∃ t, __init__ cls identity dbg pc tc org fl nm num lg kwargs = Ok t)
  ∧ (∀ (cls : TaskClass) identity dbg pc tc org fl nm num lg kwargs,
       (∀ name, marked_required (task_options cls) name →
                ∃ v, (kwargs ∪ default ∅ (TaskConfig.options tc)) !! name = Some v) →
       ∃ t, __init__ cls identity dbg pc tc org fl nm num lg kwargs = Ok t).
Proof.
  split; [exact missing_required_In|].
  split.
  { intros cls identity dbg pc tc org fl nm num lg kwargs name config Hin Hreq Habs.
    pose proof (init_outcome cls identity dbg pc tc org fl nm num lg kwargs) as H.
    assert (In name (missing_required (task_options cls)
                       (resolved_options pc tc kwargs))) as Hmiss.
    { apply missing_required_In. split; [exists config; auto|].
      exact (proj2 (resolved_options_lookup pc tc kwargs name) Habs). }
    destruct (__init__ _ _ _ _ _ _ _ _ _ _ _) as [t|e].
    - destruct H as [Hnil _]. rewrite Hnil in Hmiss. destruct Hmiss.
    - destruct H as [_ ->].
      exists (missing_required (task_options cls) (resolved_options pc tc kwargs)).
      split; [reflexivity|]. split; [exact Hmiss|].
      intros other Hother. apply missing_required_In in Hother as [Hm Hnone].
      split; [exact Hm|]. exact (proj1 (resolved_options_lookup pc tc kwargs other) Hnone). }
  assert (∀ (cls : TaskClass) identity dbg pc tc org fl nm num lg kwargs,
            (∀ name, marked_required (task_options cls) name →
                     resolved_options pc tc kwargs !! name ≠ None) →
            ∃ t, __init__ cls identity dbg pc tc org fl nm num lg kwargs = Ok t)
    as Hok.
  { intros cls identity dbg pc tc org fl nm num lg kwargs Hall.
    pose proof (init_outcome cls identity dbg pc tc org fl nm num lg kwargs) as H.
    destruct (__init__ _ _ _ _ _ _ _ _ _ _ _) as [t|e]; [eauto|].
    exfalso. destruct H as [Hne _].
    destruct (nonempty_has_member _ Hne) as [n Hn].
    apply missing_required_In in Hn as [Hm Hnone]. exact (Hall n Hm Hnone). }
  split.
  - intros cls identity dbg pc tc org fl nm num lg kwargs Hnone.
    apply Hok. intros name (config & Hin & Hreq). exfalso.
    exact (Hnone name config Hin Hreq).
  - intros cls identity dbg pc tc org fl nm num lg kwargs Hpresent.
    apply Hok. intros name Hm. rewrite resolved_options_lookup.
    destruct (Hpresent name Hm) as [v ->]. discriminate.
Qed.

(** [required: True] fails the construction that has no [x];
    [required: 1] and [required: "yes"] demand nothing; [required: True]
    is met by a key bound to [None]. *)
Lemma required_only_when_identically_True_witness :
  (∃ missing, __init__ (requiring "x" (VBool true)) 0%nat false None
                (bare_config None) None None VNone VNone None ∅
              = Raise (TaskOptionsError
                         (class_name (requiring "x" (VBool true))
                            +:+ " requires the options ("
                            +:+ String.concat "," missing
                            +:+ ") and no values were provided"))
              ∧ In "x" missing)
  ∧ (∃ t, __init__ (requiring "x" (VInt 1)) 0%nat false None (bare_config None)
          None None VNone VNone None ∅ = Ok t)
  ∧ (∃ t, __init__ (requiring "x" (VStr "yes")) 0%nat false None (bare_config None)
            None None VNone VNone None ∅ = Ok t)
  ∧ (∃ t, __init__ (requiring "x" (VBool true)) 0%nat false None
            (bare_config (Some {["x" := VNone]}))
            None None VNone VNone None ∅ = Ok t).
Proof.
  destruct required_only_when_identically_True
    as (_ & Hraises & Hother & Hpresent).
  split; [|split; [|split]].
  - destruct (Hraises (requiring "x" (VBool true)) 0%nat false None
                (bare_config None) None None VNone VNone None ∅
                "x" {["required" := VBool true]})
      as (missing & Hbuilt & Hin & _);
      [left; reflexivity | reflexivity | reflexivity |].
    exists missing. split; [exact Hbuilt | exact Hin].
  - apply Hother. intros name config [Heq|[]]. inversion Heq; subst.
    vm_compute. discriminate.
  - apply Hother. intros name config [Heq|[]]. inversion Heq; subst.
    vm_compute. discriminate.
  - apply Hpresent. intros name (config & [Heq|[]] & _). inversion Heq; subst.
    exists VNone. vm_compute. reflexivity.
Defined.

(** ** Option templating *)

Lemma match_literal_length (lit s r : string) :
  match_literal lit s = Some r →
  String.length s = (String.length lit + String.length r)%nat.
Proof.
  revert s. induction lit as [|a lit IH]; intros s H; simpl in *.
  - now inversion H.
  - destruct s as [|b s]; [discriminate|].
    destruct (Ascii.eqb a b); [|discriminate].
    simpl. now rewrite (IH s H).
Qed.

Lemma take_word_length (s w r : string) :
  take_word s = (w, r) →
  String.length s = (String.length w + String.length r)%nat.
Proof.
  revert w r. induction s as [|c s IH]; intros w r H; simpl in *.
  - now inversion H.
  - destruct (is_word c).
    + destruct (take_word s) as [w' r'] eqn:E. inversion H; subst.
      simpl. now rewrite (IH w' r).
    + now inversion H.
Qed.

(** A match takes at least the seventeen characters of the shortest
    reference. *)
Lemma match_here_shorter (s group1 rest : string) :
  match_here s = Some (group1, rest) →
  (String.length rest < String.length s)%nat.
Proof.
  unfold match_here. intros H.
  destruct (match_literal "$project_config" s) as [[|c r]|] eqn:E; try discriminate.
  apply match_literal_length in E.
  destruct (Ascii.eqb c newline); [discriminate|].
  destruct (take_word r) as [[|a w] rest'] eqn:Ew; [discriminate|].
  apply take_word_length in Ew. inversion H; subst.
  simpl in *. lia.
Qed.

Lemma re_sub_enough (repl : string → string) (fuel1 fuel2 : nat) (s : string) :
  (String.length s < fuel1)%nat → (String.length s < fuel2)%nat →
  re_sub repl fuel1 s = re_sub repl fuel2 s.
Proof.
  revert fuel2 s. induction fuel1 as [|fuel1 IH]; intros fuel2 s H1 H2; [lia|].
  destruct fuel2 as [|fuel2]; [lia|]. simpl.
  destruct (match_here s) as [[group1 rest]|] eqn:E.
  - apply match_here_shorter in E. f_equal. apply IH; lia.
  - destruct s as [|c s]; [reflexivity|]. simpl in *. f_equal. apply IH; lia.
Qed.

(** The substitution, one position at a time. *)
Lemma PROJECT_CONFIG_RE_sub_eq (repl : string → string) (s : string) :
  PROJECT_CONFIG_RE_sub repl s
  = match match_here s with
    | Some (group1, rest) => repl group1 +:+ PROJECT_CONFIG_RE_sub repl rest
    | None =>
        match s with
        | EmptyString => EmptyString
        | String c s' => String c (PROJECT_CONFIG_RE_sub repl s')
        end
    end.
Proof.
  unfold PROJECT_CONFIG_RE_sub.
  change (re_sub repl (S (String.length s)) s)
    with (match match_here s with
          | Some (group1, rest) => repl group1 +:+ re_sub repl (String.length s) rest
          | None =>
              match s with
              | EmptyString => EmptyString
              | String c s' => String c (re_sub repl (String.length s) s')
              end
          end).
  destruct (match_here s) as [[group1 rest]|] eqn:E.
  - apply match_here_shorter in E. f_equal. apply re_sub_enough; lia.
  - destruct s as [|c s]; reflexivity.
Qed.

Lemma take_word_app (ident post : string) :
  all_word ident = true →
  starts_with_word post = false →
  take_word (ident +:+ post) = (ident, post).
Proof.
  intros Hi Hp. induction ident as [|c ident IH]; simpl in *.
  - destruct post as [|c post]; [reflexivity|]. simpl in *. now rewrite Hp.
  - apply andb_true_iff in Hi as [Hc Hi]. now rewrite Hc, (IH Hi).
Qed.

Lemma match_literal_app (lit r : string) :
  match_literal lit (lit +:+ r) = Some r.
Proof.
  induction lit as [|a lit IH]; simpl; [reflexivity|].
  now rewrite Ascii.eqb_refl.
Qed.

(** A reference at the head of the text, ending where the identifier ends,
    is replaced by the string form of the attribute it names, and the scan
    goes on behind it. *)
Lemma sub_at_reference (repl : string → string) (ident post : string) :
  ident ≠ EmptyString →
  all_word ident = true →
  starts_with_word post = false →
  PROJECT_CONFIG_RE_sub repl ("$project_config." +:+ ident +:+ post)
  = repl ident +:+ PROJECT_CONFIG_RE_sub repl post.
Proof.
  intros Hne Hi Hp. rewrite PROJECT_CONFIG_RE_sub_eq.
  change ("$project_config." +:+ ident +:+ post)
    with ("$project_config" +:+ String "." (ident +:+ post)).
  unfold match_here. rewrite match_literal_app.
  change (Ascii.eqb "." newline) with false. cbv iota.
  rewrite (take_word_app ident post Hi Hp).
  destruct ident; [congruence | reflexivity].
Qed.

(** A character other than the dollar sign starts no match: it is copied. *)
Lemma sub_at_other (repl : string → string) (c : ascii) (s : string) :
  c ≠ "$"%char →
  PROJECT_CONFIG_RE_sub repl (String c s) = String c (PROJECT_CONFIG_RE_sub repl s).
Proof.
  intros Hc. rewrite PROJECT_CONFIG_RE_sub_eq.
  unfold match_here. cbn [match_literal].
  destruct (Ascii.eqb "$" c) eqn:E; [|reflexivity].
  apply Ascii.eqb_eq in E. congruence.
Qed.

(** Values that are not strings keep their place and their value. *)
Lemma init_options_keeps_non_strings (kwargs : gmap string PyVal) (t : BaseTask)
    (option : string) (value : PyVal) :
  is_str value = false →
  (kwargs ∪ default ∅ (TaskConfig.options (task_config t))) !! option = Some value →
  options (_init_options kwargs t) !! option = Some value.
Proof.
  intros Hns Hl. rewrite init_options_resolved. unfold resolved_options.
  rewrite lookup_fmap, Hl. simpl. now destruct value.
Qed.

(** A reference to an attribute that exists, one to an attribute that does
    not, and a replacement that itself looks like a reference: it is not
    scanned again. *)
Example resolve_reference :
  resolve (project_with {["repo_name" := VStr "Cumulus"]})
    (VStr "name=$project_config.repo_name;")
  = VStr "name=Cumulus;".
Proof. vm_compute. reflexivity. Qed.

Example resolve_missing_attribute :
  resolve (project_with ∅) (VStr "$project_config.nothing/x") = VStr "None/x".
Proof. vm_compute. reflexivity. Qed.

Example resolve_is_one_pass :
  resolve (project_with {["a" := VStr "$project_config.b"; "b" := VInt 7]})
    (VStr "$project_config.a")
  = VStr "$project_config.b".
Proof. vm_compute. reflexivity. Qed.

(** C4.  The unescaped dot of [PROJECT_CONFIG_RE] takes the dollar sign of
    a reference that directly follows the text [$project_config]: in the
    option value [$project_config$project_config.repo_name] the match is
    [$project_config$project_config] with group [project_config], so the
    reference to [repo_name] is not replaced by the value of that attribute
    ([Cumulus]); the text [None.repo_name] results. *)
Theorem init_options_swallows_reference :
  let built :=
    __init__ BaseTaskClass 0%nat false
      (project_with {["repo_name" := VStr "Cumulus"]})
      (bare_config (Some {["path" := VStr "$project_config$project_config.repo_name"]}))
      None None VNone VNone None ∅ in
  (∃ t, built = Ok t ∧ options t !! "path" = Some (VStr "None.repo_name"))
  ∧ (∀ t, built = Ok t → options t !! "path" ≠ Some (VStr "$project_configCumulus")).
Proof.
  split.
  - eexists. split; [vm_compute; reflexivity|]. vm_compute. reflexivity.
  - intros t Ht. vm_compute in Ht. inversion Ht; subst; clear Ht.
    vm_compute. discriminate.
Qed.

(** ** Invocation without an org *)

(** C5.  A class that requires an org, called on a task that has none,
    raises [TaskRequiresSalesforceOrg] and leaves the whole state as it
    was: whatever the hooks of the class would do, no event is recorded
    (no refresh, no log line), the stack and the working directory are
    what they were, and so are [result] and [return_values]. *)
Theorem call_without_org (cls : TaskClass) (s : State) :
  salesforce_task cls = true →
  org_config (self s) = None →
  __call__ cls s = (Raise (TaskRequiresSalesforceOrg requires_org_message), s).
Proof.
  intros Hsf Horg. unfold __call__. rewrite Hsf, Horg.
  rewrite bool_decide_eq_false_2; [reflexivity|].
  intros [x Hx]. discriminate.
Qed.

Lemma call_without_org_witness :
  __call__ BaseSalesforceTaskClass
    {| self := sample_task None; env := sample_world |}
  = (Raise (TaskRequiresSalesforceOrg requires_org_message),
     {| self := sample_task None; env := sample_world |}).
Proof.
  apply call_without_org; reflexivity.
Defined.

(** With an org attached the same call refreshes the credentials first. *)
Example call_with_org_refreshes :
  events (env (snd (__call__ BaseSalesforceTaskClass
     {| self := sample_task (Some {| OrgConfig.username := VStr "dev@example.com";
                                     OrgConfig.org_id := VStr "00D" |});
        env := sample_world |})))
  = [RefreshToken (VStr "dev@example.com");
     Log INFO "Beginning task: BaseSalesforceTask";
     Log INFO "As user: dev@example.com";
     Log INFO "In org: 00D";
     Log INFO EmptyString].
Proof. vm_compute. reflexivity. Qed.

(** ** The client name *)

(** C9.  With a keychain at hand, [_get_client_name] returns the client id
    of the connected app when the lookup succeeds and [CumulusCI/<version>]
    when it raises [ServiceNotValid] or [ServiceNotConfigured]; whatever
    the task, neither of these two exceptions leaves the method. *)
Theorem get_client_name_falls_back (version : string) (t : BaseTask)
    (pc : ProjectConfig.t) (keychain : Keychain.t) :
  project_config t = Some pc →
  ProjectConfig.keychain pc = Some keychain →
  (∀ app, Keychain.get_service keychain "connectedapp" = Ok app →
          _get_client_name version t = Ok (Service.client_id app))
  ∧ (∀ msg, Keychain.get_service keychain "connectedapp" = Raise (ServiceNotValid msg)
            ∨ Keychain.get_service keychain "connectedapp" = Raise (ServiceNotConfigured msg) →
            _get_client_name version t = Ok (VStr ("CumulusCI/" +:+ version)))
  ∧ (∀ (t' : BaseTask) msg,
       _get_client_name version t' ≠ Raise (ServiceNotValid msg)
       ∧ _get_client_name version t' ≠ Raise (ServiceNotConfigured msg)).
Proof.
  intros Hpc Hkc. unfold _get_client_name. rewrite Hpc, Hkc.
  split; [|split].
  - intros app ->. reflexivity.
  - intros msg [-> | ->]; reflexivity.
  - intros t' msg.
    destruct (project_config t') as [pc'|]; [|split; discriminate].
    destruct (ProjectConfig.keychain pc') as [kc'|]; [|split; discriminate].
    destruct (Keychain.get_service kc' "connectedapp") as [app|[]];
      split; discriminate.
Qed.

Lemma get_client_name_falls_back_witness :
  _get_client_name "3.12.0"
    (task_in (project_of (keychain_of (Raise (ServiceNotConfigured "connectedapp")))))
  = Ok (VStr "CumulusCI/3.12.0").
Proof.
  pose proof (get_client_name_falls_back "3.12.0"
    (task_in (project_of (keychain_of (Raise (ServiceNotConfigured "connectedapp")))))
    (project_of (keychain_of (Raise (ServiceNotConfigured "connectedapp"))))
    (keychain_of (Raise (ServiceNotConfigured "connectedapp")))
    eq_refl eq_refl) as (_ & Hfallback & _).
  apply (Hfallback "connectedapp"). right. reflexivity.
Defined.

(** ** Freezing *)

(** C8, amended.  [freeze] returns exactly one record.  Its [name] is the
    task config's name or else the task's own, its [kind] is [other] and
    its [is_required] is [True], each of the three unless the [ui_options]
    block has the key, whose value then stands.  [path], [step_num] (the
    string form of the step number), [task_class], [task_config] (the
    options and the declared checks or an empty list) and [source] come
    from the task and the step whatever [ui_options] says; every other key
    is that of [ui_options]. *)
Theorem freeze_record (t : BaseTask) (step : Step.t) :
  ∃ ui_step,
    freeze t step = [ui_step]
    ∧ ui_step !! "name"
      = Some (overridable (TaskConfig.ui_options (task_config t)) "name"
                (py_or (TaskConfig.name (task_config t)) (name t)))
    ∧ ui_step !! "kind"
      = Some (overridable (TaskConfig.ui_options (task_config t)) "kind" (VStr "other"))
    ∧ ui_step !! "is_required"
      = Some (overridable (TaskConfig.ui_options (task_config t)) "is_required"
                (VBool true))
    ∧ ui_step !! "path" = Some (UVal (Step.path step))
    ∧ ui_step !! "step_num" = Some (UVal (VStr (py_str (Step.step_num step))))
    ∧ ui_step !! "task_class" = Some (UVal (TaskConfig.class_path (task_config t)))
    ∧ ui_step !! "task_config"
      = Some (UTaskConfig (options t)
                (match TaskConfig.checks (task_config t) with
                 | Some checks => checks
                 | None => []
                 end))
    ∧ ui_step !! "source" = Some (UVal (Step.source step))
    ∧ (∀ key, ¬ In key ("name" :: "kind" :: "is_required" :: fixed_keys) →
              ui_step !! key
              = UVal <$> (default ∅ (TaskConfig.ui_options (task_config t)) !! key)).
Proof.
  eexists. split; [reflexivity|].
  unfold dict_update, overridable.
  set (ui := default ∅ (TaskConfig.ui_options (task_config t))).
  repeat split.
  - rewrite lookup_union_r by (simplify_map_eq; reflexivity).
    rewrite lookup_union, lookup_fmap. simplify_map_eq.
    now destruct (ui !! "name").
  - rewrite lookup_union_r by (simplify_map_eq; reflexivity).
    rewrite lookup_union, lookup_fmap. simplify_map_eq.
    now destruct (ui !! "kind").
  - rewrite lookup_union_r by (simplify_map_eq; reflexivity).
    rewrite lookup_union, lookup_fmap. simplify_map_eq.
    now destruct (ui !! "is_required").
  - erewrite lookup_union_Some_l; [reflexivity|]. now simplify_map_eq.
  - erewrite lookup_union_Some_l; [reflexivity|]. now simplify_map_eq.
  - erewrite lookup_union_Some_l; [reflexivity|]. now simplify_map_eq.
  - erewrite lookup_union_Some_l; [|now simplify_map_eq].
    f_equal. f_equal. unfold checks_or_empty.
    now destruct (TaskConfig.checks (task_config t)) as [[|c l]|].
  - erewrite lookup_union_Some_l; [reflexivity|]. now simplify_map_eq.
  - intros key Hkey. simpl in Hkey.
    rewrite lookup_union_r
      by (rewrite !lookup_insert_ne by tauto; apply lookup_empty).
    rewrite lookup_union, lookup_fmap.
    rewrite !lookup_insert_ne by tauto. rewrite lookup_empty.
    now destruct (ui !! key).
Qed.

(** The scenario of the options [{"tag": "release/1.0"}] frozen at path
    [force_deploy], step [1]. *)
Example freeze_release :
  ∃ ui_step,
    freeze (release_task None) release_step = [ui_step]
    ∧ ui_step !! "task_config" = Some (UTaskConfig {["tag" := VStr "release/1.0"]} [])
    ∧ ui_step !! "path" = Some (UVal (VStr "force_deploy"))
    ∧ ui_step !! "step_num" = Some (UVal (VStr "1"))
    ∧ ui_step !! "name" = Some (UVal (VStr "deploy")).
Proof.
  eexists. split; [reflexivity|]. repeat split; vm_compute; reflexivity.
Qed.

(** C8 as stated fails: a [ui_options] block with a [name] key decides the
    name of the record, which is then neither the task config's name nor
    the task's own. *)
Lemma freeze_name_from_ui_options :
  ¬ (∃ ui_step,
       freeze (release_task (Some {["name" := VStr "Install the package"]}))
         release_step = [ui_step]
       ∧ ui_step !! "name"
         = Some (UVal (py_or (VStr "deploy") (VStr "deploy_step")))).
Proof.
  intros (ui_step & Hf & Hname).
  inversion Hf; subst ui_step; clear Hf.
  vm_compute in Hname. discriminate.
Qed.

(** ** The scopes of an invocation *)

Lemma stack_pop_after_push (s : State) (below : list nat) (top : nat) :
  stack (env s) = Some (below ++ [top])%list →
  stack_pop s = (Ok tt, on_env (set_stack (Some below)) s).
Proof.
  intros H. unfold stack_pop. rewrite H.
  destruct (below ++ [top])%list eqn:E.
  - now destruct below.
  - rewrite <- E, removelast_last. reflexivity.
Qed.

Lemma log_begin_env (cls : TaskClass) (s : State) :
  stack (env (snd (_log_begin cls s))) = stack (env s)
  ∧ cwd (env (snd (_log_begin cls s))) = cwd (env s)
  ∧ output_to (env (snd (_log_begin cls s))) = output_to (env s)
  ∧ self (snd (_log_begin cls s)) = self s.
Proof.
  unfold _log_begin, bind, logger_info, emit, modify. simpl.
  destruct (salesforce_task cls && _); simpl; [|tauto].
  destruct (org_config (self s)); simpl; tauto.
Qed.

Lemma capture_scope_eq (cls : TaskClass) (s : State) :
  capture_scope cls s
  = (fst (call_block cls (captured s)), released s (snd (call_block cls (captured s)))).
Proof.
  unfold capture_scope, capture_context, with_, try_finally, bind, gets,
    captured, released.
  destruct (CAPTURE_TASK_OUTPUT (env s)); simpl;
    now destruct (call_block cls _).
Qed.

Lemma cd_scope_eq {A} (path : PyVal) (inner : M A) (s : State) :
  with_ (cd path) inner s
  = (fst (inner (changed_dir path s)),
     on_env (set_cwd (cwd (env s))) (snd (inner (changed_dir path s)))).
Proof.
  unfold with_, try_finally, bind, cd, changed_dir, gets, modify, ret. simpl.
  destruct (py_truthy path); simpl; now destruct (inner _).
Qed.

Lemma stacked_enter_eq (s : State) :
  enter stacked_task s
  = (Ok tt, on_env (set_stack (Some (default [] (stack (env s)) ++ [task_id (self s)])%list)) s).
Proof.
  destruct s as [t [st c o ev cap]].
  now destruct st.
Qed.

Lemma call_block_eq (cls : TaskClass) (s : State) :
  call_block cls s
  = match _log_begin cls s with
    | (Raise e, s1) => (Raise e, s1)
    | (Ok _, s1) =>
        match _run_task cls s1 with
        | (Raise e, s2) => (Raise e, s2)
        | (Ok v, s2) => (Ok (return_values (self s2)), on_self (set_result v) s2)
        end
    end.
Proof.
  unfold call_block, bind, modify, gets.
  destruct (_log_begin cls s) as [[[]|e] s1]; [|reflexivity].
  now destruct (_run_task cls s1) as [[v|e] s2].
Qed.

Lemma call_block_stack (cls : TaskClass) (s : State) :
  keeps_stack (_run_task cls) →
  stack (env (snd (call_block cls s))) = stack (env s).
Proof.
  intros Hbody. rewrite call_block_eq.
  destruct (log_begin_env cls s) as (Hs & _).
  destruct (_log_begin cls s) as [[[]|e] s1]; simpl in *; [|exact Hs].
  specialize (Hbody s1).
  destruct (_run_task cls s1) as [[v|e] s2]; simpl in *; congruence.
Qed.

Lemma bind_eq {A B} (m : M A) (k : A → M B) (s : State) :
  bind m k s
  = match m s with
    | (Ok a, s1) => k a s1
    | (Raise e, s1) => (Raise e, s1)
    end.
Proof. reflexivity. Qed.

Lemma repo_root_state (s : State) : snd (repo_root_or_None s) = s.
Proof.
  unfold repo_root_or_None.
  destruct (project_config (self s)) as [pc|]; [|reflexivity].
  now destruct (ProjectConfig.attrs pc !! "repo_root").
Qed.

Lemma stacked_scope_eq {A} (inner : M A) (s : State) :
  with_ stacked_task inner s
  = let r :=
      inner (on_env (set_stack
               (Some (default [] (stack (env s)) ++ [task_id (self s)])%list)) s) in
    match stack_pop (snd r) with
    | (Ok _, s2) => (fst r, s2)
    | (Raise e, s2) => (Raise e, s2)
    end.
Proof.
  unfold with_, bind. rewrite stacked_enter_eq. unfold try_finally.
  now destruct (inner _).
Qed.

Lemma working_path_scope_eq (cls : TaskClass) (s : State) :
  (run modify (fun s => on_self (set_working_path (Some (cwd (env s)))) s) then
   let* path := repo_root_or_None in
   with_ (cd path) (capture_scope cls))
    (on_env (set_stack
       (Some (default [] (stack (env s)) ++ [task_id (self s)])%list)) s)
  = match repo_root_or_None (pushed s) with
    | (Ok path, _) => with_ (cd path) (capture_scope cls) (pushed s)
    | (Raise e, _) => (Raise e, pushed s)
    end.
Proof.
  unfold bind at 1, modify.
  change (on_self _ (on_env _ s)) with (pushed s).
  unfold bind.
  pose proof (repo_root_state (pushed s)) as Hst.
  destruct (repo_root_or_None (pushed s)) as [[path|e] s1]; simpl in Hst;
    now subst s1.
Qed.

Lemma scoped_call_eq (cls : TaskClass) (s : State) :
  scoped_call cls s
  = match repo_root_or_None (pushed s) with
    | (Raise e, _) =>
        (Raise e, on_env (set_stack (Some (default [] (stack (env s))))) (pushed s))
    | (Ok path, _) =>
        let inner := capture_scope cls (changed_dir path (pushed s)) in
        let s1 := on_env (set_cwd (cwd (env s))) (snd inner) in
        match stack_pop s1 with
        | (Ok _, s2) => (fst inner, s2)
        | (Raise e, s2) => (Raise e, s2)
        end
    end.
Proof.
  unfold scoped_call.
  rewrite stacked_scope_eq, working_path_scope_eq.
  destruct (repo_root_or_None (pushed s)) as [[path|e] s1].
  - rewrite cd_scope_eq. reflexivity.
  - simpl. erewrite stack_pop_after_push; reflexivity.
Qed.

Lemma scoped_entry_eq (cls : TaskClass) (s : State) :
  scoped_entry cls s
  = match repo_root_or_None (pushed s) with
    | (Ok path, _) => _log_begin cls (captured (changed_dir path (pushed s)))
    | (Raise e, _) => (Raise e, pushed s)
    end.
Proof.
  unfold scoped_entry.
  unfold bind at 1. rewrite stacked_enter_eq.
  unfold bind at 1, modify at 1.
  change (on_self _ (on_env _ s)) with (pushed s).
  unfold bind at 1.
  pose proof (repo_root_state (pushed s)) as Hst.
  destruct (repo_root_or_None (pushed s)) as [[path|e] s1]; simpl in Hst;
    subst s1; [|reflexivity].
  unfold bind, cd, capture_context, gets, modify, ret, captured, changed_dir.
  simpl.
  destruct (py_truthy path); simpl;
    destruct (CAPTURE_TASK_OUTPUT (env s)); reflexivity.
Qed.

Lemma scopes_keep_stack (path : PyVal) (s : State) :
  stack (env (captured (changed_dir path s))) = stack (env s)
  ∧ self (captured (changed_dir path s)) = self s.
Proof.
  unfold captured, changed_dir.
  destruct (py_truthy path); simpl;
    destruct (CAPTURE_TASK_OUTPUT (env s)); simpl; auto.
Qed.

Lemma released_stack (before s : State) :
  stack (env (released before s)) = stack (env s)
  ∧ self (released before s) = self s.
Proof.
  unfold released. destruct (CAPTURE_TASK_OUTPUT (env before)); simpl; auto.
Qed.

Lemma pushed_top (s : State) :
  stack (env (pushed s)) = Some (default [] (stack (env s)) ++ [task_id (self s)])%list
  ∧ task_id (self (pushed s)) = task_id (self s).
Proof. split; reflexivity. Qed.

Lemma scoped_call_unwinds (cls : TaskClass) (s : State) :
  keeps_stack (_run_task cls) →
  stack (env (snd (scoped_call cls s))) = Some (default [] (stack (env s)))
  ∧ cwd (env (snd (scoped_call cls s))) = cwd (env s)
  ∧ ∀ s_in, scoped_entry cls s = (Ok tt, s_in) →
      stack_top (env s_in) = Some (task_id (self s_in))
      ∧ match _run_task cls s_in with
        | (Raise e, _) => fst (scoped_call cls s) = Raise e
        | (Ok v, s_out) =>
            fst (scoped_call cls s) = Ok (return_values (self s_out))
            ∧ result (self (snd (scoped_call cls s))) = v
        end.
Proof.
  intros Hbody.
  rewrite scoped_call_eq, scoped_entry_eq.
  destruct (repo_root_or_None (pushed s)) as [[path|e] s1].
  - set (sc := changed_dir path (pushed s)).
    rewrite capture_scope_eq. cbv zeta. simpl fst. simpl snd.
    assert (stack (env (on_env (set_cwd (cwd (env s)))
                     (released sc (snd (call_block cls (captured sc))))))
            = Some (default [] (stack (env s)) ++ [task_id (self s)])%list) as Hst.
    { simpl. rewrite (proj1 (released_stack _ _)), call_block_stack by exact Hbody.
      subst sc. rewrite (proj1 (scopes_keep_stack _ _)). reflexivity. }
    rewrite (stack_pop_after_push _ _ _ Hst).
    split; [reflexivity|]. split; [reflexivity|].
    intros s_in Hin. split.
    + destruct (log_begin_env cls (captured sc)) as (Hs & _ & _ & Hself).
      rewrite Hin in Hs, Hself. simpl in Hs, Hself.
      unfold stack_top. rewrite Hs, Hself. subst sc.
      rewrite (proj1 (scopes_keep_stack _ _)), (proj2 (scopes_keep_stack _ _)).
      simpl. apply last_snoc.
    + rewrite call_block_eq, Hin.
      destruct (_run_task cls s_in) as [[v|e] s_out]; simpl; [|reflexivity].
      split; [reflexivity|].
      rewrite (proj2 (released_stack _ _)). reflexivity.
  - simpl. split; [reflexivity|]. split; [reflexivity|]. discriminate.
Qed.

Lemma call_eq (cls : TaskClass) (s : State) :
  __call__ cls s
  = if salesforce_task cls && negb (bool_decide (is_Some (org_config (self s))))
    then (Raise (TaskRequiresSalesforceOrg requires_org_message), s)
    else (run _update_credentials cls then
          run _init_task cls then
          scoped_call cls) s.
Proof. reflexivity. Qed.

Lemma before_body_eq (cls : TaskClass) (s : State) :
  before_body cls s
  = if salesforce_task cls && negb (bool_decide (is_Some (org_config (self s))))
    then (Raise (TaskRequiresSalesforceOrg requires_org_message), s)
    else (run _update_credentials cls then
          run _init_task cls then
          scoped_entry cls) s.
Proof. reflexivity. Qed.

Lemma stack_depth_pushed_popped (w w' : World) :
  stack w' = Some (default [] (stack w)) → stack_depth w' = stack_depth w.
Proof. unfold stack_depth. now intros ->. Qed.

(** C6.  When the hooks leave the stack and the working directory alone and
    the body leaves the stack as it found it, every invocation ends with
    the stack as deep as it was and the working directory what it was,
    wherever the body went and whether it returned or raised; the body runs
    with the task itself on top of the stack; and the outcome of the
    invocation is the body's: its exception, unchanged, or the return
    values with the body's value stored as the result. *)
Theorem call_unwinds_scopes (cls : TaskClass) (s : State) :
  keeps_stack (_update_credentials cls) → keeps_cwd (_update_credentials cls) →
  keeps_stack (_init_task cls) → keeps_cwd (_init_task cls) →
  keeps_stack (_run_task cls) →
  stack_depth (env (snd (__call__ cls s))) = stack_depth (env s)
  ∧ cwd (env (snd (__call__ cls s))) = cwd (env s)
  ∧ ∀ s_in, before_body cls s = (Ok tt, s_in) →
      stack_top (env s_in) = Some (task_id (self s_in))
      ∧ match _run_task cls s_in with
        | (Raise e, _) => fst (__call__ cls s) = Raise e
        | (Ok v, s_out) =>
            fst (__call__ cls s) = Ok (return_values (self s_out))
            ∧ result (self (snd (__call__ cls s))) = v
        end.
Proof.
  intros Hus Huc His Hic Hbody.
  rewrite call_eq, before_body_eq.
  destruct (salesforce_task cls && _).
  { simpl. split; [reflexivity|]. split; [reflexivity|]. discriminate. }
  rewrite !bind_eq.
  specialize (Hus s). specialize (Huc s).
  destruct (_update_credentials cls s) as [[[]|e] s1]; simpl in Hus, Huc.
  2: { simpl. unfold stack_depth. rewrite Hus, Huc.
       split; [reflexivity|]. split; [reflexivity|]. discriminate. }
  rewrite !bind_eq.
  specialize (His s1). specialize (Hic s1).
  destruct (_init_task cls s1) as [[[]|e] s2]; simpl in His, Hic.
  2: { simpl. unfold stack_depth. rewrite His, Hus, Hic, Huc.
       split; [reflexivity|]. split; [reflexivity|]. discriminate. }
  destruct (scoped_call_unwinds cls s2 Hbody) as (Hst & Hcwd & Hin).
  split; [|split].
  - rewrite (stack_depth_pushed_popped (env s2)) by exact Hst.
    unfold stack_depth. now rewrite His, Hus.
  - now rewrite Hcwd, Hic, Huc.
  - exact Hin.
Qed.

Lemma call_unwinds_scopes_witness :
  stack_depth (env (snd (__call__ WanderingTask sample_state))) = 0%nat
  ∧ cwd (env (snd (__call__ WanderingTask sample_state))) = "/home/dev"
  ∧ fst (__call__ WanderingTask sample_state)
    = Raise (OtherError "RuntimeError" "boom").
Proof.
  destruct (call_unwinds_scopes WanderingTask sample_state)
    as (Hdepth & Hcwd & Hbody); try (intros s; reflexivity).
  split; [exact Hdepth|]. split; [exact Hcwd|].
  destruct (Hbody _ eq_refl) as [_ Hraise]. exact Hraise.
Defined.

(** ** The retry loop *)

Ltac mstep :=
  cbn [bind ret gets modify raise lift negb fst snd setitem emit
       logger_warning logger_info on_self on_env py_sub py_add py_as_int].

Lemma getitem_eq (key : string) (v : PyVal) (s : State) :
  options (self s) !! key = Some v → getitem key s = (Ok v, s).
Proof. intros H. unfold getitem. now rewrite H. Qed.

Ltac mget H := rewrite bind_eq, (getitem_eq _ _ _ H); cbv beta iota.

Lemma sleeps_app (l1 l2 : list event) :
  sleeps (l1 ++ l2)%list = (sleeps l1 ++ sleeps l2)%list.
Proof. unfold sleeps. apply omap_app. Qed.

(** One pass through the [except] block when a retry is due. *)
Lemma retry_handler_retries (cls : TaskClass) (e : exn) (s : State)
    (R A : Z) (v : PyVal) :
  options (self s) !! "retries" = Some (VInt R) →
  R ≠ 0 →
  _is_retry_valid cls e s = true →
  options (self s) !! "retry_interval" = Some v →
  usable_interval v →
  (py_truthy v = true → options (self s) !! "retry_interval_add" = Some (VInt A)) →
  ∃ s',
    retry_handler cls e s = (Ok tt, s')
    ∧ options (self s') !! "retries" = Some (VInt (R - 1))
    ∧ options (self s') !! "retry_interval" = Some (next_interval A v)
    ∧ options (self s') !! "retry_interval_add"
      = options (self s) !! "retry_interval_add"
    ∧ attrs (self s') = attrs (self s)
    ∧ sleeps (events (env s')) = (sleeps (events (env s)) ++ slept v)%list.
Proof.
  intros Hr HR Hvalid Hv Huse Hadd.
  unfold retry_handler.
  mget Hr.
  assert (py_truthy (VInt R) = true) as ->
    by (simpl; apply negb_true_iff, Z.eqb_neq, HR).
  mstep. rewrite Hvalid. mstep.
  mget Hv.
  destruct Huse as [Hfalsy | (d & -> & Hd)].
  - rewrite Hfalsy. mstep.
    mget Hr. mstep.
    rewrite bind_eq, (getitem_eq "retries" (VInt (R - 1)))
      by (simpl; apply lookup_insert_eq).
    mstep.
    eexists. split; [reflexivity|]. simpl.
    rewrite lookup_insert_eq, !lookup_insert_ne by discriminate.
    rewrite Hv, sleeps_app, !app_nil_r.
    assert (next_interval A v = v ∧ slept v = []) as [-> ->].
    { destruct v as [| | d | |]; try (split; reflexivity).
      simpl in Hfalsy. apply negb_false_iff in Hfalsy.
      simpl. now rewrite Hfalsy. }
    rewrite app_nil_r. repeat split; reflexivity.
  - assert (py_truthy (VInt d) = true) as Ht
      by (simpl; apply negb_true_iff, Z.eqb_neq; lia).
    specialize (Hadd Ht). rewrite Ht.
    rewrite bind_eq. mget Hv. mstep.
    rewrite bind_eq, (getitem_eq "retry_interval" (VInt d)) by exact Hv.
    cbv beta iota. unfold time_sleep. simpl py_as_int. cbv beta iota.
    assert ((d <? 0) = false) as -> by (apply Z.ltb_ge; lia).
    mstep.
    rewrite bind_eq, (getitem_eq "retry_interval_add" (VInt A)) by exact Hadd.
    cbv beta iota.
    assert (slept (VInt d) = [d] ∧ next_interval A (VInt d) = VInt (d + A))
      as [-> ->].
    { simpl. assert ((d =? 0) = false) as -> by (apply Z.eqb_neq; lia). auto. }
    change (py_truthy (VInt A)) with (negb (A =? 0)).
    destruct (A =? 0) eqn:HA; cbn [negb]; cbv beta iota.
    + apply Z.eqb_eq in HA. subst A. mstep.
      rewrite bind_eq, (getitem_eq "retries" (VInt R)) by exact Hr.
      cbv beta iota. mstep.
      rewrite bind_eq, (getitem_eq "retries" (VInt (R - 1)))
        by (simpl; apply lookup_insert_eq).
      mstep.
      eexists. split; [reflexivity|]. simpl.
      rewrite lookup_insert_eq, !lookup_insert_ne by discriminate.
      rewrite Hv, Z.add_0_r, !sleeps_app. simpl. rewrite !app_nil_r.
      repeat split; reflexivity.
    + rewrite bind_eq, (getitem_eq "retry_interval" (VInt d)) by exact Hv.
      cbv beta iota.
      rewrite bind_eq, (getitem_eq "retry_interval_add" (VInt A)) by exact Hadd.
      cbv beta iota. mstep.
      rewrite bind_eq, (getitem_eq "retries" (VInt R))
        by (simpl; rewrite lookup_insert_ne by discriminate; exact Hr).
      cbv beta iota. mstep.
      rewrite bind_eq, (getitem_eq "retries" (VInt (R - 1)))
        by (simpl; apply lookup_insert_eq).
      mstep.
      eexists. split; [reflexivity|]. simpl.
      rewrite lookup_insert_eq.
      rewrite (lookup_insert_ne _ "retries" "retry_interval") by discriminate.
      rewrite lookup_insert_eq, !lookup_insert_ne by discriminate.
      rewrite !sleeps_app. simpl. rewrite !app_nil_r.
      repeat split; reflexivity.
Qed.

Lemma retry_handler_exhausted (cls : TaskClass) (e : exn) (s : State) :
  options (self s) !! "retries" = Some (VInt 0) →
  retry_handler cls e s = (Raise e, s).
Proof.
  intros Hr. unfold retry_handler. mget Hr. reflexivity.
Qed.

Lemma next_interval_truthy (A : Z) (v : PyVal) :
  py_truthy v = false → next_interval A v = v.
Proof.
  destruct v as [| | d | |]; try reflexivity.
  simpl. intros H. apply negb_false_iff in H. now rewrite H.
Qed.

(** [k] failed attempts, each followed by a pass through the [except]
    block, bring the loop to a state from which it goes on. *)
Lemma retry_rounds (cls : TaskClass) (Inv : nat → gmap string PyVal → Prop)
    (outcome_of : nat → outcome unit) (A : Z) :
  step_behaves cls Inv outcome_of →
  (∀ n e s, outcome_of n = Raise e → _is_retry_valid cls e s = true) →
  ∀ (k a : nat) (R : Z) (v : PyVal) (s : State),
    Inv a (attrs (self s)) →
    options (self s) !! "retries" = Some (VInt R) →
    Z.of_nat k ≤ R →
    options (self s) !! "retry_interval" = Some v →
    (py_truthy v = true → options (self s) !! "retry_interval_add" = Some (VInt A)) →
    Forall usable_interval (intervals A v k) →
    (∀ i, (i < k)%nat → is_Ok (outcome_of (a + i)%nat) = false) →
    ∃ s_k,
      (∀ fuel, _retry cls (k + fuel) s = _retry cls fuel s_k)
      ∧ Inv (a + k)%nat (attrs (self s_k))
      ∧ options (self s_k) !! "retries" = Some (VInt (R - Z.of_nat k))
      ∧ options (self s_k) !! "retry_interval" = Some (Nat.iter k (next_interval A) v)
      ∧ options (self s_k) !! "retry_interval_add"
        = options (self s) !! "retry_interval_add"
      ∧ sleeps (events (env s_k))
        = (sleeps (events (env s)) ++ flat_map slept (intervals A v k))%list.
Proof.
  intros Hstep Hvalid k.
  induction k as [|k IH]; intros a R v s Hinv Hr HR Hv Hadd Huse Hfail.
  - exists s. rewrite Nat.add_0_r, Z.sub_0_r. simpl. rewrite app_nil_r.
    repeat split; auto.
  - destruct (Hstep a s Hinv) as (s1 & Htry & Hinv1 & Hopts1 & Hsl1).
    pose proof (Hfail 0%nat ltac:(lia)) as Hf0. rewrite Nat.add_0_r in Hf0.
    destruct (outcome_of a) as [[]|e] eqn:Ho; [discriminate|].
    inversion Huse as [|? ? Huse0 Huse']; subst.
    destruct (retry_handler_retries cls e s1 R A v)
      as (s2 & Hh & Hr2 & Hv2 & Hadd2 & Hattrs2 & Hsl2);
      try (rewrite Hopts1; assumption); try lia; eauto.
    destruct (IH (S a) (R - 1) (next_interval A v) s2)
      as (s_k & Hloop & Hinvk & Hrk & Hvk & Haddk & Hslk);
      try assumption; try lia.
    + now rewrite Hattrs2.
    + intros Ht. rewrite Hadd2, Hopts1. apply Hadd.
      destruct (py_truthy v) eqn:Hv0; [reflexivity|].
      rewrite next_interval_truthy in Ht by exact Hv0. congruence.
    + intros i Hi. replace (S a + i)%nat with (a + S i)%nat by lia.
      apply Hfail. lia.
    + exists s_k. repeat split.
      * intros fuel. simpl. rewrite Htry, Hh. apply Hloop.
      * replace (a + S k)%nat with (S a + k)%nat by lia. exact Hinvk.
      * rewrite Hrk. do 2 f_equal. lia.
      * rewrite Hvk. f_equal. now rewrite Nat.iter_succ_r.
      * now rewrite Haddk, Hadd2, Hopts1.
      * rewrite Hslk, Hsl2, Hsl1. simpl. now rewrite <- app_assoc.
Qed.

(** The whole run: [k] retried failures and the attempt that ends it. *)
Lemma retry_run (cls : TaskClass) (Inv : nat → gmap string PyVal → Prop)
    (outcome_of : nat → outcome unit) (A : Z) (N k : nat) (v : PyVal) (s : State) :
  step_behaves cls Inv outcome_of →
  (∀ n e s, outcome_of n = Raise e → _is_retry_valid cls e s = true) →
  Inv 0%nat (attrs (self s)) →
  options (self s) !! "retries" = Some (VInt (Z.of_nat N)) →
  options (self s) !! "retry_interval" = Some v →
  (py_truthy v = true → options (self s) !! "retry_interval_add" = Some (VInt A)) →
  Forall usable_interval (intervals A v k) →
  ends_after outcome_of N k →
  ∀ fuel, (k < fuel)%nat →
    ∃ s', _retry cls fuel s = Some (outcome_of k, s')
          ∧ Inv (S k) (attrs (self s'))
          ∧ options (self s') !! "retries" = Some (VInt (Z.of_nat N - Z.of_nat k))
          ∧ options (self s') !! "retry_interval" = Some (Nat.iter k (next_interval A) v)
          ∧ sleeps (events (env s'))
            = (sleeps (events (env s)) ++ flat_map slept (intervals A v k))%list.
Proof.
  intros Hstep Hvalid Hinv Hr Hv Hadd Huse (Hk & Hfail & Hend) fuel Hfuel.
  destruct (retry_rounds cls Inv outcome_of A Hstep Hvalid k 0%nat
              (Z.of_nat N) v s Hinv Hr ltac:(lia) Hv Hadd Huse Hfail)
    as (s_k & Hloop & Hinvk & Hrk & Hvk & _ & Hslk).
  simpl in Hinvk.
  replace fuel with (k + S (fuel - k - 1))%nat by lia.
  rewrite Hloop. simpl.
  destruct (Hstep k s_k Hinvk) as (s' & Htry & Hinv' & Hopts' & Hsl').
  rewrite Htry. exists s'.
  assert (Inv (S k) (attrs (self s'))
          ∧ options (self s') !! "retries" = Some (VInt (Z.of_nat N - Z.of_nat k))
          ∧ options (self s') !! "retry_interval" = Some (Nat.iter k (next_interval A) v)
          ∧ sleeps (events (env s'))
            = (sleeps (events (env s)) ++ flat_map slept (intervals A v k))%list)
    as Hfacts.
  { rewrite Hopts', Hsl'. auto. }
  split; [|exact Hfacts].
  destruct (outcome_of k) as [[]|e] eqn:Ho; [reflexivity|].
  destruct Hend as [Hok | ->]; [discriminate|].
  rewrite retry_handler_exhausted; [reflexivity|].
  rewrite Hopts', Hrk. do 2 f_equal. lia.
Qed.

Lemma nonnegative_intervals_usable (A d : Z) (k : nat) :
  0 ≤ A → 0 ≤ d → Forall usable_interval (intervals A (VInt d) k).
Proof.
  intros HA. revert d. induction k as [|k IH]; intros d Hd; simpl.
  - constructor.
  - constructor.
    + destruct (Z.eq_dec d 0) as [->|Hne].
      * now left.
      * right. exists d. split; [reflexivity | lia].
    + destruct (d =? 0) eqn:E.
      * apply IH. lia.
      * apply IH. lia.
Qed.

Lemma falsy_intervals (A : Z) (v : PyVal) (k : nat) :
  py_truthy v = false →
  Forall usable_interval (intervals A v k)
  ∧ flat_map slept (intervals A v k) = []
  ∧ Nat.iter k (next_interval A) v = v.
Proof.
  intros Hv. induction k as [|k (IH1 & IH2 & IH3)]; simpl.
  - repeat split. constructor.
  - rewrite (next_interval_truthy A v Hv), IH3, (next_interval_truthy A v Hv).
    repeat split.
    + constructor; [now left | exact IH1].
    + rewrite IH2, app_nil_r.
      destruct v as [| | d | |]; try reflexivity.
      simpl in Hv. apply negb_false_iff in Hv. simpl. now rewrite Hv.
Qed.

Lemma positive_intervals (A d : Z) (k : nat) :
  (∀ i, (i < k)%nat → 0 < d + Z.of_nat i * A) →
  Forall usable_interval (intervals A (VInt d) k)
  ∧ flat_map slept (intervals A (VInt d) k)
    = map (fun i => d + Z.of_nat i * A) (seq 0 k)
  ∧ Nat.iter k (next_interval A) (VInt d) = VInt (d + Z.of_nat k * A).
Proof.
  revert d. induction k as [|k IH]; intros d Hpos.
  - simpl. repeat split; [constructor | f_equal; lia].
  - assert (0 < d) as Hd by (specialize (Hpos 0%nat ltac:(lia)); lia).
    assert (next_interval A (VInt d) = VInt (d + A)) as Hnext.
    { simpl. assert ((d =? 0) = false) as -> by (apply Z.eqb_neq; lia).
      reflexivity. }
    destruct (IH (d + A)) as (IH1 & IH2 & IH3).
    { intros i Hi. specialize (Hpos (S i) ltac:(lia)). lia. }
    rewrite Nat.iter_succ_r. cbn [intervals flat_map]. rewrite Hnext.
    repeat split.
    + constructor; [|exact IH1]. right. exists d. split; [reflexivity | lia].
    + rewrite IH2. cbn [seq map].
      assert (slept (VInt d) = [d]) as ->.
      { simpl. assert ((d =? 0) = false) as -> by (apply Z.eqb_neq; lia).
        reflexivity. }
      simpl. f_equal; [lia|].
      rewrite <- seq_shift, map_map. apply map_ext. intros i. lia.
    + rewrite IH3. f_equal. lia.
Qed.

Lemma retry_handler_rejected (cls : TaskClass) (e : exn) (s : State) (R : Z) :
  options (self s) !! "retries" = Some (VInt R) →
  _is_retry_valid cls e s = false →
  retry_handler cls e s = (Raise e, s).
Proof.
  intros Hr Hrej. unfold retry_handler. mget Hr.
  destruct (py_truthy (VInt R)); mstep; [rewrite Hrej|]; reflexivity.
Qed.

Lemma retry_handler_negative (cls : TaskClass) (e : exn) (s : State) (R d : Z) :
  options (self s) !! "retries" = Some (VInt R) →
  R ≠ 0 →
  _is_retry_valid cls e s = true →
  options (self s) !! "retry_interval" = Some (VInt d) →
  d < 0 →
  ∃ s', retry_handler cls e s = (Raise ValueError, s')
        ∧ sleeps (events (env s')) = sleeps (events (env s)).
Proof.
  intros Hr HR Hvalid Hv Hd.
  unfold retry_handler.
  mget Hr.
  assert (py_truthy (VInt R) = true) as ->
    by (simpl; apply negb_true_iff, Z.eqb_neq, HR).
  mstep. rewrite Hvalid. mstep.
  mget Hv.
  assert (py_truthy (VInt d) = true) as ->
    by (simpl; apply negb_true_iff, Z.eqb_neq; lia).
  rewrite bind_eq. mget Hv. mstep.
  rewrite bind_eq, (getitem_eq "retry_interval" (VInt d)) by exact Hv.
  cbv beta iota. unfold time_sleep. cbn [py_as_int].
  assert ((d <? 0) = true) as -> by (apply Z.ltb_lt; lia).
  mstep. eexists. split; [reflexivity|]. simpl.
  rewrite sleeps_app. simpl. apply app_nil_r.
Qed.

(** Whatever the integers in the three options, a pass through the
    [except] block either raises without having slept, or returns having
    slept as [slept] says. *)
Lemma retry_handler_cases (cls : TaskClass) (e : exn) (s : State) (R d A : Z) :
  options (self s) !! "retries" = Some (VInt R) →
  options (self s) !! "retry_interval" = Some (VInt d) →
  options (self s) !! "retry_interval_add" = Some (VInt A) →
  (∃ e' s', retry_handler cls e s = (Raise e', s')
            ∧ sleeps (events (env s')) = sleeps (events (env s)))
  ∨ (∃ s', retry_handler cls e s = (Ok tt, s')
           ∧ options (self s') !! "retries" = Some (VInt (R - 1))
           ∧ options (self s') !! "retry_interval" = Some (next_interval A (VInt d))
           ∧ options (self s') !! "retry_interval_add" = Some (VInt A)
           ∧ attrs (self s') = attrs (self s)
           ∧ sleeps (events (env s')) = (sleeps (events (env s)) ++ slept (VInt d))%list).
Proof.
  intros Hr Hv Hadd.
  destruct (Z.eq_dec R 0) as [->|HR].
  { left. exists e, s. split; [now apply retry_handler_exhausted | reflexivity]. }
  destruct (_is_retry_valid cls e s) eqn:Hvalid.
  2: { left. exists e, s. split; [now apply (retry_handler_rejected _ _ _ R) | reflexivity]. }
  destruct (Z.lt_trichotomy d 0) as [Hneg | Hnonneg].
  { left. destruct (retry_handler_negative cls e s R d) as (s' & Hh & Hsl); auto.
    eauto. }
  right.
  destruct (retry_handler_retries cls e s R A (VInt d))
    as (s' & Hh & Hr' & Hv' & Hadd' & Hattrs' & Hsl'); auto.
  { destruct Hnonneg as [-> | Hpos]; [now left|].
    right. exists d. split; [reflexivity | lia]. }
  exists s'. rewrite Hadd in Hadd'. auto 10.
Qed.

(** The seconds slept by a run of the loop always are the first terms of
    [d], [d + A], [d + 2 A], ... *)
Lemma retry_sleeps_progression (cls : TaskClass)
    (Inv : nat → gmap string PyVal → Prop) (outcome_of : nat → outcome unit) (A : Z) :
  step_behaves cls Inv outcome_of →
  ∀ (fuel a : nat) (R d : Z) (s : State) r s',
    Inv a (attrs (self s)) →
    options (self s) !! "retries" = Some (VInt R) →
    options (self s) !! "retry_interval" = Some (VInt d) →
    options (self s) !! "retry_interval_add" = Some (VInt A) →
    _retry cls fuel s = Some (r, s') →
    ∃ m, sleeps (events (env s'))
         = (sleeps (events (env s)) ++ map (fun i => d + Z.of_nat i * A) (seq 0 m))%list.
Proof.
  intros Hstep fuel.
  induction fuel as [|fuel IH]; intros a R d s r s' Hinv Hr Hv Hadd Hrun;
    [discriminate|].
  cbn [_retry] in Hrun.
  destruct (Hstep a s Hinv) as (s1 & Htry & Hinv1 & Hopts1 & Hsl1).
  rewrite Htry in Hrun.
  destruct (outcome_of a) as [[]|e].
  { inversion Hrun; subst. exists 0%nat. simpl. now rewrite app_nil_r. }
  rewrite <- Hopts1 in Hr, Hv, Hadd.
  destruct (retry_handler_cases cls e s1 R d A Hr Hv Hadd)
    as [(e' & s2 & Hh & Hsl2) | (s2 & Hh & Hr2 & Hv2 & Hadd2 & Hattrs2 & Hsl2)];
    rewrite Hh in Hrun.
  { inversion Hrun; subst. exists 0%nat. simpl. rewrite app_nil_r. congruence. }
  rewrite <- Hattrs2 in Hinv1.
  cbn [next_interval slept] in Hv2, Hsl2.
  destruct (d =? 0) eqn:Hd.
  - apply Z.eqb_eq in Hd. subst d.
    destruct (IH (S a) (R - 1) 0 s2 r s' Hinv1 Hr2 Hv2 Hadd2 Hrun) as [m Hm].
    exists m. rewrite Hm, Hsl2, Hsl1, app_nil_r. reflexivity.
  - destruct (IH (S a) (R - 1) (d + A) s2 r s' Hinv1 Hr2 Hv2 Hadd2 Hrun) as [m Hm].
    exists (S m). rewrite Hm, Hsl2, Hsl1, <- app_assoc. f_equal.
    cbn [seq map app]. f_equal; [lia|].
    rewrite <- seq_shift, map_map. apply map_ext. intros i. lia.
Qed.

(** C1.  With [retries = N], a sleep interval and an increment that are
    non-negative integers, and a predicate that accepts the errors of the
    step: when attempts 1 to N+1 all fail, the loop ends by raising the
    error of attempt N+1, the step having been called N+1 times; when the
    first [k ≤ N] attempts fail and the next succeeds, the loop returns and
    [options["retries"]] is [N - k].  The intervals that the retries of the
    run sleep, [d + i * A] before retry [i + 1], are within what
    [time.sleep] takes. *)
Theorem retry_attempts (cls : TaskClass) (Inv : nat → gmap string PyVal → Prop)
    (outcome_of : nat → outcome unit) (N : nat) (d A : Z) (s : State) :
  step_behaves cls Inv outcome_of →
  (∀ n e s, outcome_of n = Raise e → _is_retry_valid cls e s = true) →
  Inv 0%nat (attrs (self s)) →
  options (self s) !! "retries" = Some (VInt (Z.of_nat N)) →
  options (self s) !! "retry_interval" = Some (VInt d) → 0 ≤ d →
  options (self s) !! "retry_interval_add" = Some (VInt A) → 0 ≤ A →
  ((∀ n, (n ≤ N)%nat → is_Ok (outcome_of n) = false) →
   (0 < d → ∀ i, (i < N)%nat → d + Z.of_nat i * A ≤ max_sleep) →
   ∀ fuel, (N < fuel)%nat →
     ∃ e s', outcome_of N = Raise e
             ∧ _retry cls fuel s = Some (Raise e, s')
             ∧ Inv (S N) (attrs (self s'))
             ∧ options (self s') !! "retries" = Some (VInt 0))
  ∧ (∀ k, (k ≤ N)%nat →
       (∀ n, (n < k)%nat → is_Ok (outcome_of n) = false) →
       outcome_of k = Ok tt →
       (0 < d → ∀ i, (i < k)%nat → d + Z.of_nat i * A ≤ max_sleep) →
       ∀ fuel, (k < fuel)%nat →
         ∃ s', _retry cls fuel s = Some (Ok tt, s')
               ∧ Inv (S k) (attrs (self s'))
               ∧ options (self s') !! "retries"
                 = Some (VInt (Z.of_nat N - Z.of_nat k))).
Proof.
  intros Hstep Hvalid Hinv Hr Hv Hd Hadd HA. split.
  - intros Hfail _ fuel Hfuel.
    destruct (retry_run cls Inv outcome_of A N N (VInt d) s Hstep Hvalid Hinv Hr Hv
                (fun _ => Hadd) (nonnegative_intervals_usable A d N HA Hd))
      with (fuel := fuel) as (s' & Hrun & Hinv' & Hr' & _); [|exact Hfuel|].
    { split; [lia|]. split; [|now right]. intros n Hn. apply Hfail. lia. }
    pose proof (Hfail N ltac:(lia)) as HN.
    destruct (outcome_of N) as [[]|e]; [discriminate|].
    exists e, s'. rewrite Z.sub_diag in Hr'. auto.
  - intros k Hk Hfail Hok _ fuel Hfuel.
    destruct (retry_run cls Inv outcome_of A N k (VInt d) s Hstep Hvalid Hinv Hr Hv
                (fun _ => Hadd) (nonnegative_intervals_usable A d k HA Hd))
      with (fuel := fuel) as (s' & Hrun & Hinv' & Hr' & _); [|exact Hfuel|].
    { split; [exact Hk|]. split; [exact Hfail | now left]. }
    exists s'. rewrite Hok in Hrun. auto.
Qed.

(** C7.  With [retry_interval] the integer [d] and [retry_interval_add] the
    integer [A]: whatever the run, the seconds slept are the first terms of
    [d], [d + A], [d + 2 A], ... in this order; over a run of [k] retries in
    which each interval reached, [d + i * A], is positive and within what
    [time.sleep] takes, one sleep precedes each retry, so that the first
    [k] terms are slept and the interval ends as [d + k A].  With a falsy
    [retry_interval] nothing is slept before the retries and the interval
    keeps its value. *)
Theorem retry_backoff (cls : TaskClass) (Inv : nat → gmap string PyVal → Prop)
    (outcome_of : nat → outcome unit) (N k : nat) (A : Z) (v : PyVal) (s : State) :
  step_behaves cls Inv outcome_of →
  (∀ n e s, outcome_of n = Raise e → _is_retry_valid cls e s = true) →
  Inv 0%nat (attrs (self s)) →
  options (self s) !! "retries" = Some (VInt (Z.of_nat N)) →
  options (self s) !! "retry_interval" = Some v →
  (∀ d, v = VInt d →
        options (self s) !! "retry_interval_add" = Some (VInt A) →
        ∀ fuel r s', _retry cls fuel s = Some (r, s') →
          ∃ m, sleeps (events (env s'))
               = (sleeps (events (env s))
                  ++ map (fun i => d + Z.of_nat i * A) (seq 0 m))%list)
  ∧ (ends_after outcome_of N k →
     ∀ d, v = VInt d →
        options (self s) !! "retry_interval_add" = Some (VInt A) →
        (∀ i, (i < k)%nat → 0 < d + Z.of_nat i * A ≤ max_sleep) →
        ∀ fuel, (k < fuel)%nat →
          ∃ s', _retry cls fuel s = Some (outcome_of k, s')
                ∧ sleeps (events (env s'))
                  = (sleeps (events (env s))
                     ++ map (fun i => d + Z.of_nat i * A) (seq 0 k))%list
                ∧ options (self s') !! "retry_interval"
                  = Some (VInt (d + Z.of_nat k * A)))
  ∧ (ends_after outcome_of N k →
     py_truthy v = false →
     ∀ fuel, (k < fuel)%nat →
       ∃ s', _retry cls fuel s = Some (outcome_of k, s')
             ∧ sleeps (events (env s')) = sleeps (events (env s))
             ∧ options (self s') !! "retry_interval" = Some v).
Proof.
  intros Hstep Hvalid Hinv Hr Hv. split; [|split].
  - intros d -> Hadd fuel r s' Hrun.
    exact (retry_sleeps_progression cls Inv outcome_of A Hstep fuel 0%nat
             (Z.of_nat N) d s r s' Hinv Hr Hv Hadd Hrun).
  - intros Hend d -> Hadd Hpos fuel Hfuel.
    destruct (positive_intervals A d k (fun i Hi => proj1 (Hpos i Hi)))
      as (Huse & Hsl & Hit).
    destruct (retry_run cls Inv outcome_of A N k (VInt d) s Hstep Hvalid Hinv Hr Hv
                (fun _ => Hadd) Huse Hend fuel Hfuel)
      as (s' & Hrun & _ & _ & Hv' & Hsl').
    exists s'. rewrite Hsl', Hsl, Hv', Hit. auto.
  - intros Hend Hfalsy fuel Hfuel.
    destruct (falsy_intervals A v k Hfalsy) as (Huse & Hsl & Hit).
    destruct (retry_run cls Inv outcome_of A N k v s Hstep Hvalid Hinv Hr Hv)
      with (fuel := fuel) as (s' & Hrun & _ & _ & Hv' & Hsl');
      try assumption.
    { intros Ht. congruence. }
    exists s'. rewrite Hsl', Hsl, Hv', Hit, app_nil_r. auto.
Qed.

Lemma flaky_behaves (failures : nat) :
  step_behaves (FlakyTask failures) (fun n attrs => calls_made attrs = n)
    (flaky_outcome failures).
Proof.
  intros n s Hinv. simpl. unfold flaky_try. rewrite Hinv.
  eexists. split; [reflexivity|]. simpl.
  split; [|split; reflexivity].
  unfold calls_made. rewrite lookup_insert_eq. apply Nat2Z.id.
Qed.

(** The scenario of a body that raises twice and then succeeds, run with
    [retries = 3]. *)
Lemma retry_attempts_witness :
  ∃ s', _retry (FlakyTask 2) 10 retry_state = Some (Ok tt, s')
        ∧ calls_made (attrs (self s')) = 3%nat
        ∧ options (self s') !! "retries" = Some (VInt 1).
Proof.
  destruct (retry_attempts (FlakyTask 2) _ _ 3 5 30 retry_state (flaky_behaves 2))
    as [_ Hsucceeds]; try reflexivity; try lia.
  destruct (Hsucceeds 2%nat) with (fuel := 10%nat) as (s' & Hrun & Hcalls & Hleft);
    try reflexivity; try lia.
  { intros [|[|n]] Hn; try reflexivity. lia. }
  { intros _ i Hi. unfold max_sleep. lia. }
  exists s'. split; [exact Hrun|]. split; [exact Hcalls | exact Hleft].
Defined.

Lemma retry_backoff_witness :
  ∃ s', _retry (FlakyTask 2) 10 retry_state = Some (Ok tt, s')
        ∧ sleeps (events (env s')) = [5; 35]
        ∧ options (self s') !! "retry_interval" = Some (VInt 65).
Proof.
  destruct (retry_backoff (FlakyTask 2) _ _ 3 2 30 (VInt 5) retry_state
              (flaky_behaves 2))
    as (_ & Hbackoff & _); try reflexivity.
  destruct Hbackoff with (d := 5) (fuel := 10%nat)
    as (s' & Hrun & Hslept & Hinterval); try reflexivity; try lia.
  { split; [lia|]. split; [|now left].
    intros [|[|n]] Hn; try reflexivity. lia. }
  { intros i Hi. unfold max_sleep. lia. }
  exists s'. split; [exact Hrun|]. split; [exact Hslept | exact Hinterval].
Defined.

Example retry_state_run :
  option_map (fun r => (fst r, sleeps (events (env (snd r)))))
    (_retry (FlakyTask 4) 10 retry_state)
  = Some (Raise (OtherError "Timeout" "try again"), [5; 35; 65]).
Proof. vm_compute. reflexivity. Qed.

(** ** The poll loop *)

Lemma sleep_then_update (s : State) :
  0 ≤ poll_interval_s (self s) →
  ∃ s',
    (run time_sleep (VInt (poll_interval_s (self s))) then _poll_update_interval) s
    = (Ok tt, s')
    ∧ attrs (self s') = attrs (self s)
    ∧ poll_complete (self s') = poll_complete (self s)
    ∧ poll_count (self s') = poll_count (self s)
    ∧ poll_interval_level (self s')
      = (if poll_interval_level (self s) <? poll_count (self s) / 3
         then poll_interval_level (self s) + 1
         else poll_interval_level (self s))
    ∧ poll_interval_s (self s')
      = (if poll_interval_level (self s) <? poll_count (self s) / 3
         then poll_interval_s (self s) + 1
         else poll_interval_s (self s))
    ∧ sleeps (events (env s'))
      = (sleeps (events (env s)) ++ [poll_interval_s (self s)])%list.
Proof.
  intros Hpos. unfold time_sleep. cbn [py_as_int].
  assert ((poll_interval_s (self s) <? 0) = false) as -> by (apply Z.ltb_ge; lia).
  mstep. unfold _poll_update_interval. cbn [self env on_env].
  destruct (poll_interval_level (self s) <? poll_count (self s) / 3).
  - mstep. eexists. split; [reflexivity|]. simpl.
    rewrite !sleeps_app. simpl. rewrite app_nil_r. repeat split; reflexivity.
  - eexists. split; [reflexivity|]. simpl.
    rewrite !sleeps_app. simpl. repeat split; reflexivity.
Qed.

Lemma poll_round (cls : TaskClass) (Inv : nat → gmap string PyVal → Prop)
    (M n : nat) (s : State) :
  probe_behaves cls Inv M →
  polled Inv n s →
  (S n < M)%nat →
  ∃ s', (∀ fuel, _poll cls (S fuel) s = _poll cls fuel s')
        ∧ polled Inv (S n) s'
        ∧ sleeps (events (env s'))
          = (sleeps (events (env s)) ++ [sleep_after (S n)])%list.
Proof.
  intros Hprobe (Hinv & Hc & Hcount & Hlevel & Hsecs) Hlt.
  set (s0 := on_self (fun t => set_poll_count (poll_count t + 1) t) s).
  destruct (Hprobe n s0) as (s1 & Hact & Hinv1 & Hc1 & Hcount1 & Hlevel1 & Hsecs1 & Hsl1);
    [exact Hinv | exact Hc |].
  assert ((S n =? M)%nat = false) as Hne by (apply Nat.eqb_neq; lia).
  rewrite Hne in Hc1.
  simpl in Hcount1, Hlevel1, Hsecs1, Hsl1.
  destruct (sleep_then_update s1) as (s2 & Hrun & Hattrs2 & Hc2 & Hcount2 & Hlevel2 & Hsecs2 & Hsl2).
  { rewrite Hsecs1, Hsecs. pose proof (Z.div_pos (Z.of_nat n) 3). lia. }
  exists s2. split; [|split].
  - intros fuel. cbn [_poll]. fold s0. rewrite Hact, Hc1, Hrun. reflexivity.
  - unfold polled. rewrite Hattrs2, Hc2, Hcount2, Hlevel2, Hsecs2.
    rewrite Hlevel1, Hcount1, Hsecs1, Hlevel, Hsecs, Hcount.
    replace (Z.of_nat n + 1) with (Z.of_nat (S n)) by lia.
    split; [exact Hinv1|]. split; [exact Hc1|]. split; [reflexivity|].
    destruct (Z.of_nat n / 3 <? Z.of_nat (S n) / 3) eqn:E.
    + apply Z.ltb_lt in E.
      assert (Z.of_nat (S n) / 3 = Z.of_nat n / 3 + 1) as ->; [|split; lia].
      replace (Z.of_nat (S n)) with (Z.of_nat n + 1) in * by lia.
      Z.to_euclidean_division_equations. lia.
    + apply Z.ltb_ge in E.
      assert (Z.of_nat (S n) / 3 = Z.of_nat n / 3) as ->; [|split; lia].
      replace (Z.of_nat (S n)) with (Z.of_nat n + 1) in * by lia.
      Z.to_euclidean_division_equations. lia.
  - rewrite Hsl2, Hsl1, Hsecs1, Hsecs. do 2 f_equal. unfold sleep_after.
    replace (Z.of_nat (S n)) with (Z.of_nat n + 1) by lia.
    Z.to_euclidean_division_equations. lia.
Qed.

Lemma poll_rounds (cls : TaskClass) (Inv : nat → gmap string PyVal → Prop) (M : nat) :
  probe_behaves cls Inv M →
  ∀ (j n : nat) (s : State),
    polled Inv n s →
    (n + j < M)%nat →
    ∃ s', (∀ fuel, _poll cls (j + fuel) s = _poll cls fuel s')
          ∧ polled Inv (n + j) s'
          ∧ sleeps (events (env s'))
            = (sleeps (events (env s)) ++ map sleep_after (seq (S n) j))%list.
Proof.
  intros Hprobe j. induction j as [|j IH]; intros n s Hpolled Hlt.
  - exists s. rewrite Nat.add_0_r, app_nil_r. auto.
  - destruct (poll_round cls Inv M n s Hprobe Hpolled ltac:(lia))
      as (s1 & Hstep & Hpolled1 & Hsl1).
    destruct (IH (S n) s1 Hpolled1 ltac:(lia)) as (s' & Hloop & Hpolled' & Hsl').
    exists s'. split; [|split].
    + intros fuel. cbn [Nat.add]. rewrite Hstep. apply Hloop.
    + replace (n + S j)%nat with (S n + j)%nat by lia. exact Hpolled'.
    + rewrite Hsl', Hsl1. cbn [seq map]. now rewrite <- app_assoc.
Qed.

Lemma poll_last_round (cls : TaskClass) (Inv : nat → gmap string PyVal → Prop)
    (M n : nat) (s : State) :
  probe_behaves cls Inv M →
  polled Inv n s →
  S n = M →
  ∃ s', (∀ fuel, _poll cls (S fuel) s = Some (Ok tt, s'))
        ∧ Inv M (attrs (self s'))
        ∧ poll_count (self s') = Z.of_nat M
        ∧ poll_complete (self s') = true
        ∧ sleeps (events (env s')) = sleeps (events (env s)).
Proof.
  intros Hprobe (Hinv & Hc & Hcount & _) HM.
  set (s0 := on_self (fun t => set_poll_count (poll_count t + 1) t) s).
  destruct (Hprobe n s0) as (s1 & Hact & Hinv1 & Hc1 & Hcount1 & _ & _ & Hsl1);
    [exact Hinv | exact Hc |].
  rewrite HM, Nat.eqb_refl in Hc1. rewrite HM in Hinv1.
  simpl in Hcount1, Hsl1.
  exists s1. split; [|repeat split; auto].
  - intros fuel. cbn [_poll]. fold s0. now rewrite Hact, Hc1.
  - rewrite Hcount1, Hcount. lia.
Qed.

Lemma sleep_after_ceiling (n : nat) :
  3 * (sleep_after n - 1) < Z.of_nat n ≤ 3 * sleep_after n.
Proof.
  unfold sleep_after. Z.to_euclidean_division_equations. lia.
Qed.

(** C2.  From the poll state that [_reset_poll] sets, with a probe that
    sets the completion flag on its [M]-th call only: the loop returns when
    it has fuel for [M] polls, the probe has then been called [M] times,
    and with less fuel the loop is still running; the seconds slept are
    those after polls 1 to [M - 1], poll [n] being followed by [n / 3]
    rounded up: 1, 1, 1, 2, 2, 2, 3, ... *)
Theorem poll_until_complete (cls : TaskClass) (Inv : nat → gmap string PyVal → Prop)
    (M : nat) (s : State) :
  probe_behaves cls Inv M →
  (1 ≤ M)%nat →
  Inv 0%nat (attrs (self s)) →
  (∀ fuel, (M ≤ fuel)%nat →
     ∃ s', _poll cls fuel (on_self _reset_poll s) = Some (Ok tt, s')
           ∧ Inv M (attrs (self s'))
           ∧ poll_count (self s') = Z.of_nat M
           ∧ poll_complete (self s') = true
           ∧ sleeps (events (env s'))
             = (sleeps (events (env s)) ++ map sleep_after (seq 1 (M - 1)))%list)
  ∧ (∀ fuel, (fuel < M)%nat → _poll cls fuel (on_self _reset_poll s) = None)
  ∧ (∀ n, 3 * (sleep_after n - 1) < Z.of_nat n ≤ 3 * sleep_after n).
Proof.
  intros Hprobe HM Hinv.
  assert (polled Inv 0 (on_self _reset_poll s)) as Hstart.
  { unfold polled. simpl. auto. }
  split; [|split].
  - intros fuel Hfuel.
    destruct (poll_rounds cls Inv M Hprobe (M - 1) 0%nat _ Hstart ltac:(lia))
      as (s1 & Hloop & Hpolled1 & Hsl1).
    destruct (poll_last_round cls Inv M (0 + (M - 1)) s1 Hprobe Hpolled1 ltac:(lia))
      as (s' & Hlast & Hinv' & Hcount' & Hc' & Hsl').
    exists s'. split; [|repeat split; auto].
    + replace fuel with ((M - 1) + S (fuel - M))%nat by lia.
      rewrite Hloop. apply Hlast.
    + rewrite Hsl', Hsl1. reflexivity.
  - intros fuel Hfuel.
    destruct (poll_rounds cls Inv M Hprobe fuel 0%nat _ Hstart ltac:(lia))
      as (s1 & Hloop & _).
    specialize (Hloop 0%nat). rewrite Nat.add_0_r in Hloop. now rewrite Hloop.
  - apply sleep_after_ceiling.
Qed.

Lemma counting_probe_behaves (M : nat) :
  probe_behaves (PollingTask M) (fun n attrs => calls_made attrs = n) M.
Proof.
  intros n s Hinv Hc. cbn [_poll_action PollingTask]. unfold counting_probe.
  rewrite Hinv. eexists. split; [reflexivity|].
  destruct (S n =? M)%nat eqn:E; cbn [self on_self attrs set_attrs set_poll_complete
      poll_complete poll_count poll_interval_level poll_interval_s env];
    unfold calls_made; rewrite lookup_insert_eq, Nat2Z.id; repeat split; auto.
Qed.

Lemma poll_until_complete_witness :
  ∃ s', _poll (PollingTask 7) 7 (on_self _reset_poll sample_state) = Some (Ok tt, s')
        ∧ calls_made (attrs (self s')) = 7%nat
        ∧ sleeps (events (env s')) = [1; 1; 1; 2; 2; 2].
Proof.
  destruct (poll_until_complete (PollingTask 7) _ 7 sample_state
              (counting_probe_behaves 7))
    as (Hreturns & _ & _); try reflexivity; try lia.
  destruct (Hreturns 7%nat) as (s' & Hrun & Hcalls & _ & _ & Hslept); [lia|].
  exists s'. split; [exact Hrun|]. split; [exact Hcalls | exact Hslept].
Defined.

Example poll_ten :
  option_map (fun r => sleeps (events (env (snd r))))
    (_poll (PollingTask 10) 10 (on_self _reset_poll sample_state))
  = Some [1; 1; 1; 2; 2; 2; 3; 3; 3].
Proof. vm_compute. reflexivity. Qed.

(** * Further properties *)

(** ** Option resolution *)

Lemma sub_without_dollar (repl : string → string) (s : string) :
  has_dollar s = false → PROJECT_CONFIG_RE_sub repl s = s.
Proof.
  induction s as [|c s IH]; intros H.
  - reflexivity.
  - simpl in H. apply orb_false_iff in H as [Hc Hs].
    rewrite sub_at_other, (IH Hs); [reflexivity|].
    intros ->. discriminate.
Qed.

Lemma sub_after_plain_text (repl : string → string) (pre s : string) :
  has_dollar pre = false →
  PROJECT_CONFIG_RE_sub repl (pre +:+ s) = pre +:+ PROJECT_CONFIG_RE_sub repl s.
Proof.
  induction pre as [|c pre IH]; intros H.
  - reflexivity.
  - simpl in H. apply orb_false_iff in H as [Hc Hs].
    change (String c pre +:+ s) with (String c (pre +:+ s)).
    rewrite sub_at_other, (IH Hs); [reflexivity|].
    intros ->. discriminate.
Qed.

(** X1.  In the options of a task that [__init__] has built, a key given as
    a keyword argument has the keyword's value and any other key the value
    of the task config, each after templating; the keys are those of the
    two mappings and no other. *)
Theorem init_options_merge
    (cls : TaskClass) identity dbg pc tc org fl nm num lg kwargs (t : BaseTask) :
  __init__ cls identity dbg pc tc org fl nm num lg kwargs = Ok t →
  (∀ key,
     options t !! key
     = resolve pc <$> (match kwargs !! key with
                       | Some v => Some v
                       | None => default ∅ (TaskConfig.options tc) !! key
                       end))
  ∧ dom (options t) = dom kwargs ∪ dom (default ∅ (TaskConfig.options tc)).
Proof.
  intros Hbuilt.
  pose proof (init_outcome cls identity dbg pc tc org fl nm num lg kwargs) as H.
  rewrite Hbuilt in H. destruct H as [_ ->]. unfold resolved_options. split.
  - intros key. rewrite lookup_fmap, lookup_union.
    destruct (kwargs !! key), (default ∅ (TaskConfig.options tc) !! key);
      reflexivity.
  - rewrite dom_fmap_L, dom_union_L. reflexivity.
Qed.

Lemma init_options_merge_witness :
  ∃ t, __init__ BaseTaskClass 0%nat false None
         (bare_config (Some {["tag" := VStr "beta/1"; "dry_run" := VBool false]}))
         None None VNone VNone None {["tag" := VStr "release/1.0"]} = Ok t
       ∧ options t !! "tag" = Some (VStr "release/1.0")
       ∧ options t !! "dry_run" = Some (VBool false).
Proof.
  eexists. split; [reflexivity|].
  split.
  - rewrite (proj1 (init_options_merge BaseTaskClass 0%nat false None
      (bare_config (Some {["tag" := VStr "beta/1"; "dry_run" := VBool false]}))
      None None VNone VNone None {["tag" := VStr "release/1.0"]} _ eq_refl) "tag").
    reflexivity.
  - rewrite (proj1 (init_options_merge BaseTaskClass 0%nat false None
      (bare_config (Some {["tag" := VStr "beta/1"; "dry_run" := VBool false]}))
      None None VNone VNone None {["tag" := VStr "release/1.0"]} _ eq_refl) "dry_run").
    reflexivity.
Defined.

(** X2.  An option whose value is a string without a dollar sign is stored
    as it was given. *)
Theorem init_options_keeps_plain_text (kwargs : gmap string PyVal) (t : BaseTask)
    (option s : string) :
  (kwargs ∪ default ∅ (TaskConfig.options (task_config t))) !! option = Some (VStr s) →
  has_dollar s = false →
  options (_init_options kwargs t) !! option = Some (VStr s).
Proof.
  intros Hl Hs. rewrite init_options_resolved. unfold resolved_options.
  rewrite lookup_fmap, Hl. simpl. now rewrite sub_without_dollar.
Qed.

Lemma init_options_keeps_plain_text_witness :
  options (_init_options {["path" := VStr "src/main"]} (sample_task None)) !! "path"
  = Some (VStr "src/main").
Proof.
  apply init_options_keeps_plain_text; reflexivity.
Defined.

Lemma ends_identifier_not_word (s : string) :
  ends_identifier s = true → starts_with_word s = false.
Proof.
  destruct s as [|c s]; [reflexivity|]. simpl.
  intros H. apply andb_true_iff in H as [_ H]. now apply negb_true_iff.
Qed.

(** X3.  For a task that has a project configuration: a reference
    [$project_config.<identifier>], the identifier made of ASCII letters,
    digits and underscores, that stands after text free of dollar signs and
    is followed by nothing or by text, free of dollar signs, that begins
    with an ASCII character outside the identifiers, is replaced by the
    string form of the attribute of that name, the text around it being
    kept; when the project configuration has no such attribute, the text
    [None] takes its place. *)
Theorem resolve_reference_in_text (c : ProjectConfig.t)
    (pre ident post : string) :
  has_dollar pre = false →
  ident ≠ EmptyString →
  all_word ident = true →
  ends_identifier post = true →
  has_dollar post = false →
  resolve (Some c) (VStr (pre +:+ "$project_config." +:+ ident +:+ post))
  = VStr (pre +:+ py_str (default VNone (ProjectConfig.attrs c !! ident)) +:+ post)
  ∧ (ProjectConfig.attrs c !! ident = None →
     resolve (Some c) (VStr (pre +:+ "$project_config." +:+ ident +:+ post))
     = VStr (pre +:+ "None" +:+ post)).
Proof.
  intros Hpre Hne Hid Hpost Hdollar.
  apply ends_identifier_not_word in Hpost.
  assert (resolve (Some c) (VStr (pre +:+ "$project_config." +:+ ident +:+ post))
          = VStr (pre +:+ py_str (default VNone (ProjectConfig.attrs c !! ident))
                    +:+ post)) as Heq.
  { cbn [resolve]. rewrite sub_after_plain_text by exact Hpre.
    rewrite sub_at_reference by assumption.
    rewrite sub_without_dollar by exact Hdollar.
    unfold getattr. now destruct (ProjectConfig.attrs c !! ident). }
  split; [exact Heq|].
  intros Hmissing. rewrite Heq, Hmissing. reflexivity.
Qed.

Lemma resolve_reference_in_text_witness :
  resolve (project_with {["repo_name" := VStr "Cumulus"]})
    (VStr ("name=" +:+ "$project_config." +:+ "repo_name" +:+ ";"))
  = VStr ("name=" +:+ "Cumulus" +:+ ";").
Proof.
  apply (proj1 (resolve_reference_in_text
                  {| ProjectConfig.attrs := {["repo_name" := VStr "Cumulus"]};
                     ProjectConfig.keychain := None |}
                  "name=" "repo_name" ";"
                  eq_refl ltac:(discriminate) eq_refl eq_refl eq_refl)).
Defined.

(** X4.  In ASCII text the dot of [PROJECT_CONFIG_RE] stands for any
    character but a newline: [$project_config] followed by one such
    character and an identifier, the longest run of letters, digits and
    underscores there, is replaced by what the identifier names, whatever
    the character is, and the substitution goes on in the text after the
    identifier; followed by a newline, [$project_config] is kept as it is
    and the substitution goes on after the newline. *)
Theorem sub_takes_any_separator (repl : string → string) (c : ascii)
    (ident post rest : string) :
  (ascii_char c = true →
   c ≠ newline →
   ident ≠ EmptyString →
   all_word ident = true →
   all_ascii post = true →
   starts_with_word post = false →
   PROJECT_CONFIG_RE_sub repl ("$project_config" +:+ String c (ident +:+ post))
   = repl ident +:+ PROJECT_CONFIG_RE_sub repl post)
  ∧ (all_ascii rest = true →
     PROJECT_CONFIG_RE_sub repl ("$project_config" +:+ String newline rest)
     = "$project_config" +:+ String newline (PROJECT_CONFIG_RE_sub repl rest)).
Proof.
  split.
  - intros _ Hc Hne Hid _ Hpost.
    rewrite PROJECT_CONFIG_RE_sub_eq.
    unfold match_here. rewrite match_literal_app.
    destruct (Ascii.eqb c newline) eqn:E;
      [apply Ascii.eqb_eq in E; congruence|].
    rewrite (take_word_app ident post Hid Hpost).
    destruct ident; [congruence | reflexivity].
  - intros _. rewrite PROJECT_CONFIG_RE_sub_eq.
    unfold match_here. rewrite match_literal_app, Ascii.eqb_refl.
    change ("$project_config" +:+ String newline rest)
      with (String "$" ("project_config" +:+ String newline rest)).
    cbv iota. reflexivity.
Qed.

Lemma sub_takes_any_separator_witness :
  PROJECT_CONFIG_RE_sub (fun g => "<" +:+ g +:+ ">")
    ("$project_config" +:+ String "/" ("docs" +:+ ";"))
  = "<docs>" +:+ PROJECT_CONFIG_RE_sub (fun g => "<" +:+ g +:+ ">") ";".
Proof.
  apply (proj1 (sub_takes_any_separator (fun g => "<" +:+ g +:+ ">") "/"
                  "docs" ";" EmptyString));
    first [reflexivity | discriminate].
Defined.

(** ** Option validation *)

(** X5.  Validation looks at the presence of keys only, and more keys never
    hurt: when every key of one options mapping is a key of another, the
    names missing from the second are among those missing from the first,
    in the same order, and a task that passes validation with the first
    passes it with the second. *)
Theorem validate_options_monotone (class_name : string) (task_options : schema)
    (t t' : BaseTask) :
  (∀ key, options t !! key ≠ None → options t' !! key ≠ None) →
  missing_required task_options (options t')
    `sublist_of` missing_required task_options (options t)
  ∧ (_validate_options class_name task_options t = Ok tt →
     _validate_options class_name task_options t' = Ok tt).
Proof.
  intros Hkeys.
  assert (missing_required task_options (options t')
            `sublist_of` missing_required task_options (options t)) as Hsub.
  { induction task_options as [|[n config] rest IH]; simpl; [constructor|].
    destruct (is_True (config !! "required")); simpl; [|exact IH].
    unfold absent.
    destruct (options t !! n) eqn:E.
    - assert (options t' !! n ≠ None) as Hn by (apply Hkeys; congruence).
      destruct (options t' !! n); [exact IH | congruence].
    - destruct (options t' !! n); [now apply sublist_cons | now apply sublist_skip]. }
  split; [exact Hsub|].
  unfold _validate_options.
  destruct (missing_required task_options (options t)) eqn:E; [|discriminate].
  apply sublist_nil_r in Hsub. now rewrite Hsub.
Qed.

Lemma validate_options_monotone_witness :
  _validate_options "Deploy" [("x", {["required" := VBool true]})]
    (set_options {["x" := VInt 1; "y" := VNone]} (sample_task None)) = Ok tt.
Proof.
  apply (validate_options_monotone "Deploy" [("x", {["required" := VBool true]})]
           (set_options {["x" := VInt 1]} (sample_task None))
           (set_options {["x" := VInt 1; "y" := VNone]} (sample_task None))).
  - intros key. cbn [options set_options]. intros Hkey.
    destruct (decide (key = "x")) as [->|Hne]; [vm_compute; discriminate|].
    exfalso. apply Hkey. apply lookup_singleton_ne. congruence.
  - reflexivity.
Defined.

(** X6.  When the names of the schema are distinct, as the keys of a
    dictionary are, no missing name is listed twice. *)
Theorem missing_required_NoDup (task_options : schema) (opts : gmap string PyVal) :
  NoDup (map fst task_options) →
  NoDup (missing_required task_options opts).
Proof.
  intros Hnd.
  exact (sublist_NoDup _ _ Hnd (missing_required_sublist task_options opts)).
Qed.

Lemma missing_required_NoDup_witness :
  NoDup (missing_required
           [("x", {["required" := VBool true]}); ("y", {["required" := VBool true]})]
           ∅).
Proof.
  apply missing_required_NoDup. simpl.
  apply NoDup_cons. split; [|apply NoDup_singleton].
  intros Hin. apply list_elem_of_singleton in Hin. discriminate.
Defined.

(** ** The retry loop *)

Lemma retry_handler_gives_up (cls : TaskClass) (e : exn) (s : State) (r : PyVal) :
  options (self s) !! "retries" = Some r →
  py_truthy r = false ∨ _is_retry_valid cls e s = false →
  retry_handler cls e s = (Raise e, s).
Proof.
  intros Hr Hor. unfold retry_handler. mget Hr.
  destruct (py_truthy r); mstep; [|reflexivity].
  destruct Hor as [Hf | ->]; [discriminate | reflexivity].
Qed.

(** X7.  When the first attempt fails and [retries] is falsy, whatever its
    type, or the predicate rejects the error, the loop raises that very
    error after this one attempt, the options and the clock being as the
    step left them. *)
Theorem retry_gives_up_at_once (cls : TaskClass)
    (Inv : nat → gmap string PyVal → Prop) (outcome_of : nat → outcome unit)
    (e : exn) (r : PyVal) (s : State) :
  step_behaves cls Inv outcome_of →
  Inv 0%nat (attrs (self s)) →
  outcome_of 0%nat = Raise e →
  options (self s) !! "retries" = Some r →
  py_truthy r = false ∨ (∀ s', _is_retry_valid cls e s' = false) →
  ∀ fuel, (0 < fuel)%nat →
    ∃ s', _retry cls fuel s = Some (Raise e, s')
          ∧ Inv 1%nat (attrs (self s'))
          ∧ options (self s') = options (self s)
          ∧ sleeps (events (env s')) = sleeps (events (env s)).
Proof.
  intros Hstep Hinv Hfail Hr Hor fuel Hfuel.
  destruct fuel as [|fuel]; [lia|].
  destruct (Hstep 0%nat s Hinv) as (s1 & Htry & Hinv1 & Hopts1 & Hsl1).
  rewrite Hfail in Htry. exists s1. cbn [_retry]. rewrite Htry.
  rewrite (retry_handler_gives_up cls e s1 r); [auto| |].
  - now rewrite Hopts1.
  - destruct Hor as [Hf | Hrej]; [now left | right; apply Hrej].
Qed.

Lemma strict_behaves (failures : nat) :
  step_behaves (StrictTask failures) (fun n attrs => calls_made attrs = n)
    (flaky_outcome failures).
Proof.
  intros n s Hinv. cbn [_try StrictTask]. unfold flaky_try. rewrite Hinv.
  eexists. split; [reflexivity|]. simpl.
  split; [|split; reflexivity].
  unfold calls_made. rewrite lookup_insert_eq. apply Nat2Z.id.
Qed.

Lemma retry_gives_up_at_once_witness :
  ∃ s', _retry (StrictTask 2) 10 retry_state
        = Some (Raise (OtherError "Timeout" "try again"), s')
        ∧ calls_made (attrs (self s')) = 1%nat
        ∧ options (self s') = options (self retry_state)
        ∧ sleeps (events (env s')) = sleeps (events (env retry_state)).
Proof.
  apply (retry_gives_up_at_once (StrictTask 2) (fun n attrs => calls_made attrs = n)
           (flaky_outcome 2) (OtherError "Timeout" "try again") (VInt 3) retry_state
           (strict_behaves 2) eq_refl eq_refl eq_refl).
  - right. intros s'. reflexivity.
  - lia.
Defined.

(** X8.  The loop reads its options only when an attempt has failed, and
    reads them unguarded: after a failure, a missing [retries] key raises
    [KeyError] in place of the error of the step; with retries left, a
    missing [retry_interval] key does, before anything is slept or counted
    down; and with a positive interval that [time.sleep] takes, a missing
    [retry_interval_add] key does after the sleep. *)
Theorem retry_missing_option (cls : TaskClass)
    (Inv : nat → gmap string PyVal → Prop) (outcome_of : nat → outcome unit)
    (e : exn) (s : State) :
  step_behaves cls Inv outcome_of →
  Inv 0%nat (attrs (self s)) →
  outcome_of 0%nat = Raise e →
  (∀ s', _is_retry_valid cls e s' = true) →
  ∀ fuel, (0 < fuel)%nat →
    (options (self s) !! "retries" = None →
     ∃ s', _retry cls fuel s = Some (Raise (KeyError "retries"), s')
           ∧ options (self s') = options (self s)
           ∧ sleeps (events (env s')) = sleeps (events (env s)))
    ∧ (∀ r, options (self s) !! "retries" = Some r → py_truthy r = true →
         options (self s) !! "retry_interval" = None →
         ∃ s', _retry cls fuel s = Some (Raise (KeyError "retry_interval"), s')
               ∧ options (self s') = options (self s)
               ∧ sleeps (events (env s')) = sleeps (events (env s)))
    ∧ (∀ r d, options (self s) !! "retries" = Some r → py_truthy r = true →
         options (self s) !! "retry_interval" = Some (VInt d) →
         0 < d ≤ max_sleep →
         options (self s) !! "retry_interval_add" = None →
         ∃ s', _retry cls fuel s = Some (Raise (KeyError "retry_interval_add"), s')
               ∧ options (self s') = options (self s)
               ∧ sleeps (events (env s')) = (sleeps (events (env s)) ++ [d])%list).
Proof.
  intros Hstep Hinv Hfail Hvalid fuel Hfuel.
  destruct fuel as [|fuel]; [lia|].
  destruct (Hstep 0%nat s Hinv) as (s1 & Htry & Hinv1 & Hopts1 & Hsl1).
  rewrite Hfail in Htry. cbn [_retry]. rewrite Htry.
  rewrite <- Hopts1, <- Hsl1. clear Htry Hinv1 Hopts1 Hsl1 Hinv.
  split; [|split].
  - intros Hr. exists s1. unfold retry_handler, bind at 1, getitem at 1.
    rewrite Hr. auto.
  - intros r Hr Ht Hv. exists s1. unfold retry_handler.
    mget Hr. rewrite Ht. mstep. rewrite Hvalid. mstep.
    unfold bind at 1, getitem at 1. rewrite Hv. auto.
  - intros r d Hr Ht Hv Hd Hadd. unfold retry_handler.
    mget Hr. rewrite Ht. mstep. rewrite Hvalid. mstep.
    mget Hv.
    assert (py_truthy (VInt d) = true) as ->
      by (simpl; apply negb_true_iff, Z.eqb_neq; lia).
    rewrite bind_eq. mget Hv. mstep.
    rewrite bind_eq, (getitem_eq "retry_interval" (VInt d)) by exact Hv.
    cbv beta iota. unfold time_sleep. cbn [py_as_int].
    assert ((d <? 0) = false) as -> by (apply Z.ltb_ge; lia).
    mstep. unfold bind at 1, getitem at 1. cbn [self on_env options].
    rewrite Hadd. eexists. split; [reflexivity|].
    split; [reflexivity|]. simpl. rewrite !sleeps_app. simpl.
    now rewrite app_nil_r.
Qed.

Lemma retry_missing_option_witness :
  ∃ s', _retry (FlakyTask 2) 10 sample_state = Some (Raise (KeyError "retries"), s')
        ∧ options (self s') = options (self sample_state)
        ∧ sleeps (events (env s')) = sleeps (events (env sample_state)).
Proof.
  apply (proj1 (retry_missing_option (FlakyTask 2)
                  (fun n attrs => calls_made attrs = n) (flaky_outcome 2)
                  (OtherError "Timeout" "try again") sample_state
                  (flaky_behaves 2) eq_refl eq_refl (fun _ => eq_refl)
                  10%nat ltac:(lia))).
  reflexivity.
Defined.

(** X9.  A negative [retries] is truthy and only moves away from zero: with
    a step that fails every time, a predicate that accepts its errors, and
    an interval that every pass finds the same, zero or a number of seconds
    that [time.sleep] takes and that nothing is added to, the loop never
    gives up, however much fuel it is given. *)
Theorem retry_negative_never_ends (cls : TaskClass)
    (Inv : nat → gmap string PyVal → Prop) (outcome_of : nat → outcome unit)
    (d A : Z) :
  step_behaves cls Inv outcome_of →
  (∀ n, is_Ok (outcome_of n) = false) →
  (∀ n e s, outcome_of n = Raise e → _is_retry_valid cls e s = true) →
  0 ≤ d ≤ max_sleep →
  d = 0 ∨ A = 0 →
  ∀ (fuel a : nat) (R : Z) (s : State),
    Inv a (attrs (self s)) →
    options (self s) !! "retries" = Some (VInt R) → R < 0 →
    options (self s) !! "retry_interval" = Some (VInt d) →
    options (self s) !! "retry_interval_add" = Some (VInt A) →
    _retry cls fuel s = None.
Proof.
  intros Hstep Hfail Hvalid Hd Hsame fuel.
  induction fuel as [|fuel IH]; intros a R s Hinv Hr HR Hv Hadd;
    [reflexivity|].
  cbn [_retry].
  destruct (Hstep a s Hinv) as (s1 & Htry & Hinv1 & Hopts1 & Hsl1).
  rewrite Htry. specialize (Hfail a).
  destruct (outcome_of a) as [[]|e] eqn:Ho; [discriminate|].
  rewrite <- Hopts1 in Hr, Hv, Hadd.
  destruct (retry_handler_retries cls e s1 R A (VInt d))
    as (s2 & Hh & Hr2 & Hv2 & Hadd2 & Hattrs2 & _); auto; try lia; eauto.
  { destruct (Z.eq_dec d 0) as [->|Hne]; [now left|].
    right. exists d. split; [reflexivity | lia]. }
  rewrite Hh. rewrite <- Hattrs2 in Hinv1. rewrite Hadd in Hadd2.
  assert (next_interval A (VInt d) = VInt d) as Hnext.
  { cbn [next_interval]. destruct (d =? 0) eqn:E; [reflexivity|].
    apply Z.eqb_neq in E. destruct Hsame as [->| ->]; [congruence|].
    now rewrite Z.add_0_r. }
  rewrite Hnext in Hv2.
  apply (IH (S a) (R - 1) s2); auto; lia.
Qed.

Lemma hopeless_behaves :
  step_behaves HopelessTask (fun n attrs => calls_made attrs = n)
    (fun _ => Raise (OtherError "Timeout" "try again")).
Proof.
  intros n s Hinv. cbn [_try HopelessTask]. unfold hopeless_try.
  eexists. split; [reflexivity|]. simpl. rewrite Hinv.
  split; [|split; reflexivity].
  unfold calls_made. rewrite lookup_insert_eq. apply Nat2Z.id.
Qed.

Lemma retry_negative_never_ends_witness :
  _retry HopelessTask 25
    (on_self (set_options {["retries" := VInt (-1); "retry_interval" := VInt 0;
                            "retry_interval_add" := VInt 0]}) sample_state)
  = None.
Proof.
  apply (retry_negative_never_ends HopelessTask
           (fun n attrs => calls_made attrs = n)
           (fun _ => Raise (OtherError "Timeout" "try again")) 0 0
           hopeless_behaves (fun _ => eq_refl) (fun _ _ _ _ => eq_refl)
           ltac:(unfold max_sleep; lia) ltac:(now left) 25%nat 0%nat (-1));
    first [reflexivity | lia].
Defined.

Lemma keeps_attrs_bind {A B} (m : M A) (k : A → M B) :
  keeps_attrs m → (∀ a, keeps_attrs (k a)) → keeps_attrs (bind m k).
Proof.
  intros Hm Hk s. unfold bind. specialize (Hm s).
  destruct (m s) as [[a|e] s1]; simpl in *; [|exact Hm].
  now rewrite Hk.
Qed.

Lemma keeps_attrs_getitem (key : string) : keeps_attrs (getitem key).
Proof. intros s. unfold getitem. now destruct (options (self s) !! key). Qed.

Lemma keeps_attrs_time_sleep (v : PyVal) : keeps_attrs (time_sleep v).
Proof.
  intros s. unfold time_sleep.
  destruct (py_as_int v) as [z|]; [|reflexivity].
  now destruct (z <? 0).
Qed.

(** The [except] block never touches the attributes of the instance. *)
Lemma retry_handler_keeps_attrs (cls : TaskClass) (e : exn) :
  keeps_attrs (retry_handler cls e).
Proof.
  unfold retry_handler.
  apply keeps_attrs_bind; [apply keeps_attrs_getitem | intros retries].
  apply keeps_attrs_bind; [now destruct (py_truthy retries) | intros valid].
  destruct (negb valid); [easy|].
  apply keeps_attrs_bind; [apply keeps_attrs_getitem | intros interval].
  apply keeps_attrs_bind.
  - destruct (py_truthy interval); [|easy].
    apply keeps_attrs_bind; [apply keeps_attrs_getitem | intros shown].
    apply keeps_attrs_bind; [easy | intros _].
    apply keeps_attrs_bind; [apply keeps_attrs_getitem | intros seconds].
    apply keeps_attrs_bind; [apply keeps_attrs_time_sleep | intros _].
    apply keeps_attrs_bind; [apply keeps_attrs_getitem | intros add].
    destruct (py_truthy add); [|easy].
    apply keeps_attrs_bind; [apply keeps_attrs_getitem | intros current].
    apply keeps_attrs_bind; [apply keeps_attrs_getitem | intros increment].
    apply keeps_attrs_bind; [easy | intros sum]. easy.
  - intros _.
    apply keeps_attrs_bind; [apply keeps_attrs_getitem | intros remaining].
    apply keeps_attrs_bind; [easy | intros decremented].
    apply keeps_attrs_bind; [easy | intros _].
    apply keeps_attrs_bind; [apply keeps_attrs_getitem | intros shown]. easy.
Qed.

(** X10.  With [retries] a non-negative integer [N] and integers for the
    interval and its increment, the loop always ends, and with at most
    [N + 1] calls of the step, whatever the step returns or raises and
    whatever the predicate answers. *)
Theorem retry_attempts_bounded (cls : TaskClass)
    (Inv : nat → gmap string PyVal → Prop) (outcome_of : nat → outcome unit)
    (A : Z) :
  step_behaves cls Inv outcome_of →
  ∀ (N fuel a : nat) (d : Z) (s : State),
    Inv a (attrs (self s)) →
    options (self s) !! "retries" = Some (VInt (Z.of_nat N)) →
    options (self s) !! "retry_interval" = Some (VInt d) →
    options (self s) !! "retry_interval_add" = Some (VInt A) →
    (N < fuel)%nat →
    ∃ r s' calls,
      _retry cls fuel s = Some (r, s')
      ∧ Inv calls (attrs (self s'))
      ∧ (a + 1 ≤ calls ≤ a + N + 1)%nat.
Proof.
  intros Hstep N.
  induction N as [|N IH]; intros fuel a d s Hinv Hr Hv Hadd Hfuel;
    (destruct fuel as [|fuel]; [lia|]); cbn [_retry];
    destruct (Hstep a s Hinv) as (s1 & Htry & Hinv1 & Hopts1 & Hsl1);
    rewrite Htry; rewrite <- Hopts1 in Hr, Hv, Hadd.
  - destruct (outcome_of a) as [[]|e].
    + exists (Ok tt), s1, (S a). split; [reflexivity|]. split; [exact Hinv1 | lia].
    + rewrite (retry_handler_exhausted cls e s1 Hr).
      exists (Raise e), s1, (S a). split; [reflexivity|]. split; [exact Hinv1 | lia].
  - destruct (outcome_of a) as [[]|e].
    + exists (Ok tt), s1, (S a). split; [reflexivity|]. split; [exact Hinv1 | lia].
    + destruct (retry_handler_cases cls e s1 (Z.of_nat (S N)) d A Hr Hv Hadd)
        as [(e' & s2 & Hh & _) | (s2 & Hh & Hr2 & Hv2 & Hadd2 & Hattrs2 & _)];
        rewrite Hh.
      * pose proof (retry_handler_keeps_attrs cls e s1) as Hkeep.
        rewrite Hh in Hkeep. simpl in Hkeep. rewrite <- Hkeep in Hinv1.
        exists (Raise e'), s2, (S a).
        split; [reflexivity|]. split; [exact Hinv1 | lia].
      * rewrite <- Hattrs2 in Hinv1.
        replace (Z.of_nat (S N) - 1) with (Z.of_nat N) in Hr2 by lia.
        cbn [next_interval] in Hv2.
        destruct (IH fuel (S a) (if d =? 0 then d else d + A) s2)
          as (r & s' & calls & Hrun & Hinv' & Hcalls); auto; try lia.
        { now destruct (d =? 0). }
        exists r, s', calls. split; [exact Hrun|]. split; [exact Hinv' | lia].
Qed.

Lemma retry_attempts_bounded_witness :
  ∃ r s' calls,
    _retry (FlakyTask 2) 4 retry_state = Some (r, s')
    ∧ calls_made (attrs (self s')) = calls
    ∧ (0 + 1 ≤ calls ≤ 0 + 3 + 1)%nat.
Proof.
  apply (retry_attempts_bounded (FlakyTask 2) (fun n attrs => calls_made attrs = n)
           (flaky_outcome 2) 30 (flaky_behaves 2) 3%nat 4%nat 0%nat 5 retry_state);
    first [reflexivity | lia].
Defined.

(** X11.  A pass through the [except] block that leads to a retry, with an
    interval of whole seconds that [time.sleep] takes, logs the wait,
    sleeps, and logs the attempts that remain, in this order: the seconds
    announced are those slept, the interval as it was before its increment,
    and the number announced is [retries] after it was counted down.  With
    an interval of zero only the second line is logged. *)
Theorem retry_handler_trace (cls : TaskClass) (e : exn) (s : State) (R d A : Z) :
  options (self s) !! "retries" = Some (VInt R) →
  R ≠ 0 →
  _is_retry_valid cls e s = true →
  options (self s) !! "retry_interval" = Some (VInt d) →
  0 ≤ d ≤ max_sleep →
  options (self s) !! "retry_interval_add" = Some (VInt A) →
  ∃ s',
    retry_handler cls e s = (Ok tt, s')
    ∧ events (env s')
      = (events (env s)
         ++ (if d =? 0 then []
             else [Log WARNING ("Sleeping for " +:+ pretty d +:+ " seconds before retry...");
                   Sleep d])
         ++ [Log WARNING ("Retrying (" +:+ pretty (R - 1) +:+ " attempts remaining)")])%list.
Proof.
  intros Hr HR Hvalid Hv Hd Hadd.
  unfold retry_handler.
  mget Hr.
  assert (py_truthy (VInt R) = true) as ->
    by (simpl; apply negb_true_iff, Z.eqb_neq, HR).
  mstep. rewrite Hvalid. mstep.
  mget Hv.
  change (py_truthy (VInt d)) with (negb (d =? 0)).
  destruct (d =? 0) eqn:Ed; cbn [negb]; cbv beta iota.
  - mstep. mget Hr. mstep.
    rewrite bind_eq, (getitem_eq "retries" (VInt (R - 1)))
      by (simpl; apply lookup_insert_eq).
    mstep. eexists. split; reflexivity.
  - apply Z.eqb_neq in Ed.
    rewrite bind_eq. mget Hv. mstep.
    rewrite bind_eq, (getitem_eq "retry_interval" (VInt d)) by exact Hv.
    cbv beta iota. unfold time_sleep. cbn [py_as_int].
    assert ((d <? 0) = false) as -> by (apply Z.ltb_ge; lia).
    mstep.
    rewrite bind_eq, (getitem_eq "retry_interval_add" (VInt A)) by exact Hadd.
    cbv beta iota.
    change (py_truthy (VInt A)) with (negb (A =? 0)).
    destruct (A =? 0) eqn:HA; cbn [negb]; cbv beta iota.
    + mstep.
      rewrite bind_eq, (getitem_eq "retries" (VInt R)) by exact Hr.
      cbv beta iota. mstep.
      rewrite bind_eq, (getitem_eq "retries" (VInt (R - 1)))
        by (simpl; apply lookup_insert_eq).
      mstep. eexists. split; [reflexivity|]. simpl.
      now rewrite <- !app_assoc.
    + rewrite bind_eq, (getitem_eq "retry_interval" (VInt d)) by exact Hv.
      cbv beta iota.
      rewrite bind_eq, (getitem_eq "retry_interval_add" (VInt A)) by exact Hadd.
      cbv beta iota. mstep.
      rewrite bind_eq, (getitem_eq "retries" (VInt R))
        by (simpl; rewrite lookup_insert_ne by discriminate; exact Hr).
      cbv beta iota. mstep.
      rewrite bind_eq, (getitem_eq "retries" (VInt (R - 1)))
        by (simpl; apply lookup_insert_eq).
      mstep. eexists. split; [reflexivity|]. simpl.
      now rewrite <- !app_assoc.
Qed.

Lemma retry_handler_trace_witness :
  ∃ s',
    retry_handler (FlakyTask 2) (OtherError "Timeout" "try again") retry_state
    = (Ok tt, s')
    ∧ events (env s')
      = [Log WARNING "Sleeping for 5 seconds before retry...";
         Sleep 5;
         Log WARNING "Retrying (2 attempts remaining)"].
Proof.
  destruct (retry_handler_trace (FlakyTask 2) (OtherError "Timeout" "try again")
              retry_state 3 5 30) as (s' & Hrun & Hevents);
    first [reflexivity | unfold max_sleep; lia | idtac].
  exists s'. split; [exact Hrun | exact Hevents].
Defined.

(** ** The poll loop *)

Lemma poll_round_pending (cls : TaskClass) (Inv : nat → gmap string PyVal → Prop)
    (M n : nat) (s : State) :
  probe_pending cls Inv M →
  polled Inv n s →
  (S n < M)%nat →
  ∃ s', (∀ fuel, _poll cls (S fuel) s = _poll cls fuel s')
        ∧ polled Inv (S n) s'
        ∧ sleeps (events (env s'))
          = (sleeps (events (env s)) ++ [sleep_after (S n)])%list.
Proof.
  intros Hprobe (Hinv & Hc & Hcount & Hlevel & Hsecs) Hlt.
  set (s0 := on_self (fun t => set_poll_count (poll_count t + 1) t) s).
  destruct (Hprobe n s0) as (s1 & Hact & Hinv1 & Hc1 & Hcount1 & Hlevel1 & Hsecs1 & Hsl1);
    [exact Hinv | exact Hc | exact Hlt |].
  simpl in Hcount1, Hlevel1, Hsecs1, Hsl1.
  destruct (sleep_then_update s1)
    as (s2 & Hrun & Hattrs2 & Hc2 & Hcount2 & Hlevel2 & Hsecs2 & Hsl2).
  { rewrite Hsecs1, Hsecs. pose proof (Z.div_pos (Z.of_nat n) 3). lia. }
  exists s2. split; [|split].
  - intros fuel. cbn [_poll]. fold s0. rewrite Hact, Hc1, Hrun. reflexivity.
  - unfold polled. rewrite Hattrs2, Hc2, Hcount2, Hlevel2, Hsecs2.
    rewrite Hlevel1, Hcount1, Hsecs1, Hlevel, Hsecs, Hcount.
    replace (Z.of_nat n + 1) with (Z.of_nat (S n)) by lia.
    split; [exact Hinv1|]. split; [exact Hc1|]. split; [reflexivity|].
    destruct (Z.of_nat n / 3 <? Z.of_nat (S n) / 3) eqn:E.
    + apply Z.ltb_lt in E.
      assert (Z.of_nat (S n) / 3 = Z.of_nat n / 3 + 1) as ->; [|split; lia].
      replace (Z.of_nat (S n)) with (Z.of_nat n + 1) in * by lia.
      Z.to_euclidean_division_equations. lia.
    + apply Z.ltb_ge in E.
      assert (Z.of_nat (S n) / 3 = Z.of_nat n / 3) as ->; [|split; lia].
      replace (Z.of_nat (S n)) with (Z.of_nat n + 1) in * by lia.
      Z.to_euclidean_division_equations. lia.
  - rewrite Hsl2, Hsl1, Hsecs1, Hsecs. do 2 f_equal. unfold sleep_after.
    replace (Z.of_nat (S n)) with (Z.of_nat n + 1) by lia.
    Z.to_euclidean_division_equations. lia.
Qed.

Lemma poll_rounds_pending (cls : TaskClass) (Inv : nat → gmap string PyVal → Prop)
    (M : nat) :
  probe_pending cls Inv M →
  ∀ (j n : nat) (s : State),
    polled Inv n s →
    (n + j < M)%nat →
    ∃ s', (∀ fuel, _poll cls (j + fuel) s = _poll cls fuel s')
          ∧ polled Inv (n + j) s'
          ∧ sleeps (events (env s'))
            = (sleeps (events (env s)) ++ map sleep_after (seq (S n) j))%list.
Proof.
  intros Hprobe j. induction j as [|j IH]; intros n s Hpolled Hlt.
  - exists s. rewrite Nat.add_0_r, app_nil_r. auto.
  - destruct (poll_round_pending cls Inv M n s Hprobe Hpolled ltac:(lia))
      as (s1 & Hstep & Hpolled1 & Hsl1).
    destruct (IH (S n) s1 Hpolled1 ltac:(lia)) as (s' & Hloop & Hpolled' & Hsl').
    exists s'. split; [|split].
    + intros fuel. cbn [Nat.add]. rewrite Hstep. apply Hloop.
    + replace (n + S j)%nat with (S n + j)%nat by lia. exact Hpolled'.
    + rewrite Hsl', Hsl1. cbn [seq map]. now rewrite <- app_assoc.
Qed.

(** X12.  When the probe raises on its [M]-th call, not having completed
    before, the loop ends with that exception: the probe has been called
    [M] times, as [poll_count] tells, the sleeps are those after polls 1 to
    [M - 1], and none follows the poll that failed. *)
Theorem poll_probe_raises (cls : TaskClass) (Inv : nat → gmap string PyVal → Prop)
    (M : nat) (e : exn) (s : State) :
  probe_pending cls Inv M →
  (∀ s1, Inv (M - 1)%nat (attrs (self s1)) →
         ∃ s2, _poll_action cls s1 = (Raise e, s2)
               ∧ poll_count (self s2) = poll_count (self s1)
               ∧ sleeps (events (env s2)) = sleeps (events (env s1))) →
  (1 ≤ M)%nat →
  Inv 0%nat (attrs (self s)) →
  ∀ fuel, (M ≤ fuel)%nat →
    ∃ s', _poll cls fuel (on_self _reset_poll s) = Some (Raise e, s')
          ∧ poll_count (self s') = Z.of_nat M
          ∧ sleeps (events (env s'))
            = (sleeps (events (env s)) ++ map sleep_after (seq 1 (M - 1)))%list.
Proof.
  intros Hpending Hraises HM Hinv fuel Hfuel.
  assert (polled Inv 0 (on_self _reset_poll s)) as Hstart.
  { unfold polled. simpl. auto. }
  destruct (poll_rounds_pending cls Inv M Hpending (M - 1) 0%nat _ Hstart ltac:(lia))
    as (s1 & Hloop & (Hinv1 & Hc1 & Hcount1 & _) & Hsl1).
  replace fuel with ((M - 1) + S (fuel - M))%nat by lia.
  rewrite Hloop. cbn [_poll].
  set (s0 := on_self (fun t => set_poll_count (poll_count t + 1) t) s1).
  destruct (Hraises s0) as (s2 & Hact & Hcount2 & Hsl2); [exact Hinv1|].
  rewrite Hact. exists s2. split; [reflexivity|]. split.
  - rewrite Hcount2. simpl. rewrite Hcount1. lia.
  - rewrite Hsl2. simpl. rewrite Hsl1. reflexivity.
Qed.

Lemma breaking_probe_pending (final : nat) :
  probe_pending (BreakingTask final) (fun n attrs => calls_made attrs = n) final.
Proof.
  intros n s Hinv Hc Hlt. cbn [_poll_action BreakingTask]. unfold breaking_probe.
  rewrite Hinv.
  assert ((S n =? final)%nat = false) as -> by (apply Nat.eqb_neq; lia).
  eexists. split; [reflexivity|]. simpl.
  unfold calls_made. rewrite lookup_insert_eq, Nat2Z.id. auto 10.
Qed.

Lemma poll_probe_raises_witness :
  ∃ s', _poll (BreakingTask 5) 9 (on_self _reset_poll sample_state)
        = Some (Raise (OtherError "ApiError" "job failed"), s')
        ∧ poll_count (self s') = 5
        ∧ sleeps (events (env s')) = [1; 1; 1; 2].
Proof.
  apply (poll_probe_raises (BreakingTask 5) (fun n attrs => calls_made attrs = n)
           5 (OtherError "ApiError" "job failed") sample_state
           (breaking_probe_pending 5)).
  - intros s1 Hinv. cbn [_poll_action BreakingTask]. unfold breaking_probe.
    rewrite Hinv. eexists. split; [reflexivity|]. split; reflexivity.
  - lia.
  - reflexivity.
  - lia.
Defined.

(** ** Freezing *)

(** X13.  The keys of the record that [freeze] returns are the eight
    standard ones together with those of the [ui_options] block, and no
    others. *)
Theorem freeze_keys (t : BaseTask) (step : Step.t) :
  ∃ ui_step,
    freeze t step = [ui_step]
    ∧ dom ui_step
      = step_keys ∪ dom (default ∅ (TaskConfig.ui_options (task_config t))).
Proof.
  eexists. split; [reflexivity|].
  unfold dict_update, step_keys.
  rewrite !dom_union_L, !dom_insert_L, dom_fmap_L, !dom_empty_L.
  apply set_eq. intros key. set_unfold. tauto.
Qed.

(** ** The client name *)

(** X14.  [_get_client_name] handles the two service exceptions and nothing
    else: any other exception of the keychain lookup leaves the method as
    it is, and a task without a project configuration, or with one that has
    no keychain, raises [AttributeError]. *)
Theorem get_client_name_other_errors (version : string) (t : BaseTask) :
  (∀ pc keychain e,
     project_config t = Some pc →
     ProjectConfig.keychain pc = Some keychain →
     Keychain.get_service keychain "connectedapp" = Raise e →
     is_service_error e = false →
     _get_client_name version t = Raise e)
  ∧ (project_config t = None
     ∨ (∃ pc, project_config t = Some pc ∧ ProjectConfig.keychain pc = None) →
     _get_client_name version t = Raise (AttributeError "keychain")).
Proof.
  unfold _get_client_name. split.
  - intros pc keychain e -> -> -> Hother. now destruct e.
  - intros [-> | (pc & -> & ->)]; reflexivity.
Qed.

Lemma get_client_name_other_errors_witness :
  _get_client_name "3.12.0"
    (task_in (project_of (keychain_of (Raise (OtherError "KeychainLocked" "locked")))))
  = Raise (OtherError "KeychainLocked" "locked").
Proof.
  apply (proj1 (get_client_name_other_errors "3.12.0"
                  (task_in (project_of
                     (keychain_of (Raise (OtherError "KeychainLocked" "locked"))))))
           (project_of (keychain_of (Raise (OtherError "KeychainLocked" "locked"))))
           (keychain_of (Raise (OtherError "KeychainLocked" "locked")))
           (OtherError "KeychainLocked" "locked"));
    reflexivity.
Defined.

(** ** Invocation *)

(** X15.  A hook that raises ends the call there: the outcome and the state
    are the hook's, so that the task is not pushed, nothing is logged and
    the body does not run; [_init_task] is not called when
    [_update_credentials] has raised. *)
Theorem call_hook_raises (cls : TaskClass) (s : State) :
  salesforce_task cls = false ∨ (∃ org, org_config (self s) = Some org) →
  (∀ e s1, _update_credentials cls s = (Raise e, s1) →
           __call__ cls s = (Raise e, s1))
  ∧ (∀ e s1 s2, _update_credentials cls s = (Ok tt, s1) →
                _init_task cls s1 = (Raise e, s2) →
                __call__ cls s = (Raise e, s2)).
Proof.
  intros Hpre. rewrite call_eq.
  assert (salesforce_task cls
          && negb (bool_decide (is_Some (org_config (self s)))) = false) as ->.
  { destruct Hpre as [-> | (org & ->)]; [reflexivity|].
    rewrite bool_decide_eq_true_2 by eauto. apply andb_false_r. }
  split.
  - intros e s1 H. rewrite bind_eq, H. reflexivity.
  - intros e s1 s2 H1 H2. rewrite bind_eq, H1. cbv beta iota.
    rewrite bind_eq, H2. reflexivity.
Qed.

Lemma call_hook_raises_witness :
  __call__ ExpiredTask sample_state
  = (Raise (OtherError "OAuthError" "expired"), sample_state).
Proof.
  apply (proj1 (call_hook_raises ExpiredTask sample_state (or_introl eq_refl))).
  reflexivity.
Defined.

Lemma scoped_entry_state (cls : TaskClass) (s s_in : State) :
  scoped_entry cls s = (Ok tt, s_in) →
  stack (env s_in) = Some (default [] (stack (env s)) ++ [task_id (self s)])%list
  ∧ self s_in = set_working_path (Some (cwd (env s))) (self s).
Proof.
  rewrite scoped_entry_eq.
  destruct (repo_root_or_None (pushed s)) as [[path|e] s1]; [|discriminate].
  intros Hlog.
  destruct (log_begin_env cls (captured (changed_dir path (pushed s))))
    as (Hs & _ & _ & Hself).
  rewrite Hlog in Hs, Hself. simpl in Hs, Hself.
  rewrite Hs, Hself.
  rewrite (proj1 (scopes_keep_stack _ _)), (proj2 (scopes_keep_stack _ _)).
  split; reflexivity.
Qed.

(** X16.  With hooks that leave the stack and the working directory alone
    and a body that leaves the stack as it found it: the body starts with
    the task pushed on top of the tasks that were executing, which stay in
    place below it, and with [working_path] holding the directory of the
    caller; after the call the stack holds the tasks it held before. *)
Theorem call_stack_discipline (cls : TaskClass) (s : State) :
  keeps_stack (_update_credentials cls) → keeps_cwd (_update_credentials cls) →
  keeps_stack (_init_task cls) → keeps_cwd (_init_task cls) →
  keeps_stack (_run_task cls) →
  default [] (stack (env (snd (__call__ cls s)))) = default [] (stack (env s))
  ∧ ∀ s_in, before_body cls s = (Ok tt, s_in) →
      stack (env s_in)
      = Some (default [] (stack (env s)) ++ [task_id (self s_in)])%list
      ∧ working_path (self s_in) = Some (cwd (env s)).
Proof.
  intros Hus Huc His Hic Hbody.
  rewrite call_eq, before_body_eq.
  destruct (salesforce_task cls && _).
  { simpl. split; [reflexivity | discriminate]. }
  rewrite !bind_eq.
  specialize (Hus s). specialize (Huc s).
  destruct (_update_credentials cls s) as [[[]|e] s1]; simpl in Hus, Huc.
  2: { simpl. rewrite Hus. split; [reflexivity | discriminate]. }
  rewrite !bind_eq.
  specialize (His s1). specialize (Hic s1).
  destruct (_init_task cls s1) as [[[]|e] s2]; simpl in His, Hic.
  2: { simpl. rewrite His, Hus. split; [reflexivity | discriminate]. }
  destruct (scoped_call_unwinds cls s2 Hbody) as (Hst & _ & _).
  split.
  - rewrite Hst. simpl. now rewrite His, Hus.
  - intros s_in Hin.
    destruct (scoped_entry_state cls s2 s_in Hin) as [Hstack Hself].
    rewrite Hstack, Hself. simpl. rewrite His, Hus, Hic, Huc. auto.
Qed.

Lemma call_stack_discipline_witness :
  default [] (stack (env (snd (__call__ WanderingTask
     (on_env (set_stack (Some [4%nat; 5%nat])) sample_state)))))
  = [4%nat; 5%nat].
Proof.
  apply (proj1 (call_stack_discipline WanderingTask
                  (on_env (set_stack (Some [4%nat; 5%nat])) sample_state)
                  (fun _ => eq_refl) (fun _ => eq_refl) (fun _ => eq_refl)
                  (fun _ => eq_refl) (fun _ => eq_refl))).
Defined.

Lemma released_events (before s : State) :
  events (env (released before s)) = events (env s).
Proof. unfold released. now destruct (CAPTURE_TASK_OUTPUT (env before)). Qed.

Lemma scoped_call_after_body (cls : TaskClass) (s s_in : State) :
  keeps_stack (_run_task cls) →
  scoped_entry cls s = (Ok tt, s_in) →
  events (env (snd (scoped_call cls s))) = events (env (snd (_run_task cls s_in)))
  ∧ self (snd (scoped_call cls s))
    = match fst (_run_task cls s_in) with
      | Ok v => set_result v (self (snd (_run_task cls s_in)))
      | Raise _ => self (snd (_run_task cls s_in))
      end.
Proof.
  intros Hbody. rewrite scoped_call_eq, scoped_entry_eq.
  destruct (repo_root_or_None (pushed s)) as [[path|e] s1]; [|discriminate].
  intros Hlog.
  set (sc := changed_dir path (pushed s)) in *.
  rewrite capture_scope_eq. cbv zeta. simpl fst. simpl snd.
  assert (stack (env (on_env (set_cwd (cwd (env s)))
                     (released sc (snd (call_block cls (captured sc))))))
          = Some (default [] (stack (env s)) ++ [task_id (self s)])%list) as Hst.
  { simpl. rewrite (proj1 (released_stack _ _)), call_block_stack by exact Hbody.
    subst sc. rewrite (proj1 (scopes_keep_stack _ _)). reflexivity. }
  rewrite (stack_pop_after_push _ _ _ Hst). simpl.
  rewrite released_events, (proj2 (released_stack _ _)).
  rewrite call_block_eq, Hlog.
  destruct (_run_task cls s_in) as [[v|e] sb]; simpl; split; reflexivity.
Qed.

(** X17.  Once the body has ended, the call logs nothing more and leaves
    the task object as the body left it, except that a value the body
    returned is stored as [result]; when the body raises, [result] keeps
    the value it had. *)
Theorem call_after_body (cls : TaskClass) (s s_in : State) :
  keeps_stack (_run_task cls) →
  before_body cls s = (Ok tt, s_in) →
  events (env (snd (__call__ cls s))) = events (env (snd (_run_task cls s_in)))
  ∧ self (snd (__call__ cls s))
    = match fst (_run_task cls s_in) with
      | Ok v => set_result v (self (snd (_run_task cls s_in)))
      | Raise _ => self (snd (_run_task cls s_in))
      end.
Proof.
  intros Hbody. rewrite call_eq, before_body_eq.
  destruct (salesforce_task cls && _); [discriminate|].
  rewrite !bind_eq.
  destruct (_update_credentials cls s) as [[[]|e] s1]; [|discriminate].
  rewrite !bind_eq.
  destruct (_init_task cls s1) as [[[]|e] s2]; [|discriminate].
  apply scoped_call_after_body. exact Hbody.
Qed.

Lemma call_after_body_witness :
  events (env (snd (__call__ ReportingTask sample_state)))
  = [Log INFO "Beginning task: ReportingTask"; Log INFO EmptyString;
     Log INFO "working"]
  ∧ result (self (snd (__call__ ReportingTask sample_state))) = VInt 0
  ∧ fst (__call__ ReportingTask sample_state) = Ok {["version" := VStr "1.0"]}.
Proof.
  destruct (call_after_body ReportingTask sample_state
              (snd (before_body ReportingTask sample_state)))
    as [Hevents Hself].
  - intros s. reflexivity.
  - reflexivity.
  - split; [exact Hevents|]. split; [|reflexivity].
    rewrite Hself. reflexivity.
Defined.
